(** * AuthProxy SDK (JavaScript): a shallow embedding of the client

    The repository holds three revisions of the class [AuthProxyClient]:

    - [V1]: [SDK/JavaScript/src/index.ts] with the module-level transport of
      [api/api-request/index.ts] (results are [string | null]);
    - [V2]: the revision configured by [baseUrl] only (results are
      [ApiResponse] objects, an event-source subscription is added);
    - [V3]: the revision constructed from [userKey] and [baseUrl], whose
      transport tries to reconnect on HTTP 401.

    JavaScript values are modelled dynamically, the way the code meets them:
    a response body is whatever the server sent, whatever its declared type.
    Strings are sequences of UTF-16 code units.  An [async] method is a
    state-and-exception computation; [await fetch(..)] asks the server
    oracle of the world for the outcome of the request.  One call runs at
    a time; a call that is started and not awaited stays suspended at its
    first [await] until the event loop resumes it. *)

From Stdlib Require Import List ZArith NArith Bool String Ascii Lia.
Import ListNotations.

Set Implicit Arguments.
#[local] Set Warnings "-register-all".

(* ================================================================= *)
(** ** Strings *)

(** A JavaScript string: its UTF-16 code units. *)
Definition jsstring := list N.

Definition lit (s : string) : jsstring :=
  map N_of_ascii (list_ascii_of_string s).

Fixpoint str_eqb (a b : jsstring) : bool :=
  match a, b with
  | [], [] => true
  | x :: a', y :: b' => N.eqb x y && str_eqb a' b'
  | _, _ => false
  end.

(** [WhiteSpace] and [LineTerminator] of ECMA-262, which [trim] strips. *)
Definition is_white_space (c : N) : bool :=
  match c with
  | 9 | 10 | 11 | 12 | 13 | 32 | 160 | 5760 => true
  | 8232 | 8233 | 8239 | 8287 | 12288 | 65279 => true
  | _ => (8192 <=? c) && (c <=? 8202)
  end%N.

Fixpoint trim_start (s : jsstring) : jsstring :=
  match s with
  | c :: s' => if is_white_space c then trim_start s' else s
  | [] => []
  end.

(** [String.prototype.trim]. *)
Definition trim (s : jsstring) : jsstring :=
  rev (trim_start (rev (trim_start s))).

(** Decimal digits of a number, as in a template literal [`${n}`]. *)
Fixpoint dec_digits (fuel : nat) (n : N) (acc : jsstring) : jsstring :=
  match fuel with
  | O => acc
  | S f =>
      let acc' := (48 + n mod 10)%N :: acc in
      if (n <? 10)%N then acc' else dec_digits f (n / 10)%N acc'
  end.

Definition dec_of_N (n : N) : jsstring :=
  dec_digits (S (N.to_nat (N.log2 n))) n [].

(** [str.replace(/c/g, d)] for a single code unit [c]. *)
Definition replace_all (c d : N) (s : jsstring) : jsstring :=
  map (fun x => if N.eqb x c then d else x) s.

(** The longest prefix without [;], for the group [([^;]+)]. *)
Fixpoint take_until_semicolon (s : jsstring) : jsstring :=
  match s with
  | c :: s' => if N.eqb c 59 then [] else c :: take_until_semicolon s'
  | [] => []
  end.

Definition after_sid_eq (s : jsstring) : option jsstring :=
  match s with
  | 115%N :: 105%N :: 100%N :: 61%N :: rest => Some rest
  | _ => None
  end.

(** [s.match(/sid=([^;]+)/)]: the first capture group of the leftmost match,
    [None] when the pattern matches nowhere (the method returns [null]). *)
Fixpoint match_sid (s : jsstring) : option jsstring :=
  match s with
  | [] => None
  | _ :: s' =>
      match after_sid_eq s with
      | Some rest =>
          match take_until_semicolon rest with
          | [] => match_sid s'
          | g => Some g
          end
      | None => match_sid s'
      end
  end.

(* ================================================================= *)
(** ** Values *)

(** The JavaScript values the client handles: JSON values and [undefined].
    A number [VNum m e] is the decimal [m * 10^e]. *)
Inductive Val : Type :=
| VUndef
| VNull
| VBool (b : bool)
| VNum (m e : Z)
| VStr (s : jsstring)
| VArr (items : list Val)
| VObj (fields : list (jsstring * Val)).

Definition Obj := list (jsstring * Val).

(** Whether the double nearest to [m * 10^e] is zero: the decimal is zero
    or it is at most half the least subnormal, [2^-1075]. *)
Definition num_is_zero (m e : Z) : bool :=
  (m =? 0)%Z || ((e <? 0)%Z && (Z.abs m * 2 ^ 1075 <=? 10 ^ (- e))%Z).

(** [ToBoolean]. *)
Definition truthy (v : Val) : bool :=
  match v with
  | VUndef | VNull => false
  | VBool b => b
  | VNum m e => negb (num_is_zero m e)
  | VStr s => match s with [] => false | _ => true end
  | VArr _ | VObj _ => true
  end.

(** [v === "s"] for a string literal. *)
Definition is_string (v : Val) (s : jsstring) : bool :=
  match v with
  | VStr t => str_eqb t s
  | _ => false
  end.

Fixpoint obj_get (k : jsstring) (o : Obj) : Val :=
  match o with
  | [] => VUndef
  | (k', v) :: o' => if str_eqb k' k then v else obj_get k o'
  end.

(** The own property [k] defined as [v], as an object literal or a spread
    does: overwritten in place, or added last. *)
Fixpoint obj_set (k : jsstring) (v : Val) (o : Obj) : Obj :=
  match o with
  | [] => [(k, v)]
  | (k', v') :: o' =>
      if str_eqb k' k then (k, v) :: o' else (k', v') :: obj_set k v o'
  end.

(** The members of [Object.prototype], which a plain object inherits. *)
Definition Object_prototype_names : list jsstring :=
  [lit "constructor"; lit "__defineGetter__"; lit "__defineSetter__";
   lit "hasOwnProperty"; lit "__lookupGetter__"; lit "__lookupSetter__";
   lit "isPrototypeOf"; lit "propertyIsEnumerable"; lit "toString";
   lit "valueOf"; lit "__proto__"; lit "toLocaleString"].

(** [o[k] = v] on a plain object, for a string [v].  The value becomes an
    own property, but under [__proto__]: there the setter of
    [Object.prototype] runs, which ignores a value that is neither an
    object nor [null], and nothing is stored. *)
Definition assign_string (k v : jsstring) (o : Obj) : Obj :=
  if str_eqb k (lit "__proto__") then o else obj_set k (VStr v) o.

(** [{...a, ...b}] on own properties. *)
Definition obj_merge (a b : Obj) : Obj :=
  fold_left (fun acc kv => obj_set (fst kv) (snd kv) acc) b a.

Fixpoint indexed (i : N) (l : list Val) : Obj :=
  match l with
  | [] => []
  | v :: l' => (dec_of_N i, v) :: indexed (N.succ i) l'
  end.

(** The own enumerable properties that [{...v}] copies. *)
Definition spread (v : Val) : Obj :=
  match v with
  | VObj fs => fs
  | VArr l => indexed 0 l
  | VStr s => indexed 0 (map (fun c => VStr [c]) s)
  | _ => []
  end.

(** Exceptions. *)
Inductive Exn : Type :=
| TypeError (what : string)
| SyntaxError (what : string)
| SystemError (what : string)
| Rejection (message : Val).

(** [e?.message] *)
Definition exn_message (e : Exn) : Val :=
  match e with
  | TypeError what | SyntaxError what | SystemError what => VStr (lit what)
  | Rejection m => m
  end.

Inductive Completion (A : Type) : Type :=
| Returned (a : A)
| Threw (e : Exn).
Arguments Threw {A} e.

(** [v.name] for the names the client reads ([result], [error], [headers],
    [set-cookie], [challenge], [challenge_id], [fido2_options],
    [deviceGuid]): none is an index, a member of a primitive's prototype or
    a member of [Object.prototype], so only objects have them, and as own
    properties. *)
Definition get_prop (v : Val) (name : string) : Completion Val :=
  match v with
  | VUndef =>
      Threw (TypeError ("Cannot read properties of undefined: " ++ name))
  | VNull => Threw (TypeError ("Cannot read properties of null: " ++ name))
  | VObj fs => Returned (obj_get (lit name) fs)
  | _ => Returned VUndef
  end.

(* ================================================================= *)
(** ** Computations *)

(** A method body: it reads and writes the state and returns or throws.
    The state survives a throw, as the fields of [this] do. *)
Definition M (S A : Type) : Type := S -> Completion A * S.

Definition ret {S A} (a : A) : M S A := fun s => (Returned a, s).

Definition throw {S A} (e : Exn) : M S A := fun s => (Threw e, s).

Definition bind {S A B} (c : M S A) (k : A -> M S B) : M S B :=
  fun s =>
    match c s with
    | (Returned a, s') => k a s'
    | (Threw e, s') => (Threw e, s')
    end.

Definition get {S} : M S S := fun s => (Returned s, s).

Definition modify {S} (f : S -> S) : M S unit := fun s => (Returned tt, f s).

(** [try { body } catch (e) { handler }] *)
Definition try_catch {S A} (body : M S A) (handler : Exn -> M S A) : M S A :=
  fun s =>
    match body s with
    | (Returned a, s') => (Returned a, s')
    | (Threw e, s') => handler e s'
    end.

(** A completed step of a larger computation. *)
Definition complete {S A} (c : Completion A) : M S A :=
  match c with
  | Returned a => ret a
  | Threw e => throw e
  end.

Declare Scope js_scope.
Delimit Scope js_scope with js.
Notation "x <- c ;; k" := (bind c (fun x => k))
  (at level 61, c at next level, right associativity) : js_scope.
Notation "c ;; k" := (bind c (fun _ => k))
  (at level 61, right associativity) : js_scope.
Open Scope js_scope.

(* ================================================================= *)
(** ** The world outside the client *)

(** [fetch(url, init)] *)
Record Request : Type := { req_url : jsstring; req_init : Obj }.

(** What [response.json()] settles to. *)
Inductive Body : Type :=
| JsonValue (v : Val)
| JsonRejects (message : Val).

Record Response : Type := {
  status : N;
  statusText : jsstring;
  (** the pairs [response.headers.forEach] visits, in its order *)
  resp_headers : list (jsstring * jsstring);
  resp_json : Body
}.

(** What the promise of a [fetch] settles to; a promise settles once, so
    every [await] of it sees the same outcome. *)
Inductive Outcome : Type :=
| Responds (r : Response)
| Rejects (message : Val).

Record EventSource : Type := {
  es_url : jsstring;
  es_consumer : nat;   (** which [handleMessage] its [onmessage] calls *)
  es_closed : bool
}.

Inductive FileState : Type :=
| NoFile
| Unreadable
| FileText (text : jsstring).

Inductive ConsoleEntry : Type :=
| ConsoleLog (args : list Val)
| ConsoleError (label : string) (e : Exn).

(** An [async] call that was started and not awaited: it ran up to its
    first [await], the request of [ApiRequest("auth/v1/login_options")]
    inside [SignInUserKey(userKey)] inside [Connect(true)], and goes on
    when the event loop comes back to it. *)
Record Suspended : Type := { awaited : Outcome; key_in_use : jsstring }.

(** The parts of the world that answer the client. *)
Record Oracle : Type := {
  (** the server's answer to a request, given the requests sent before *)
  server : list Request -> Request -> Outcome;
  (** the successive results of [getRandomText()] *)
  random_text : nat -> jsstring;
  (** the successive random UUIDs *)
  random_uuid : nat -> jsstring;
  (** whether [new EventSource(url, ..)] throws *)
  es_throws : list EventSource -> jsstring -> option Exn
}.

Record World : Type := {
  oracle : Oracle;
  net_log : list Request;
  texts_drawn : nat;
  uuids_drawn : nat;
  event_sources : list EventSource;
  delivered : list (nat * Val);
  console : list ConsoleEntry;
  suspended : list Suspended;  (** the calls nobody awaits, in flight *)
  config_file : FileState;     (** [authProxyConfig.json] in the cwd *)
  config_writable : bool;
  unhandled : list Exn         (** rejections of promises nobody awaits *)
}.

Definition set_net_log (l : list Request) (w : World) : World :=
  {| oracle := oracle w; net_log := l; texts_drawn := texts_drawn w;
     uuids_drawn := uuids_drawn w; event_sources := event_sources w;
     delivered := delivered w; console := console w;
     suspended := suspended w;
     config_file := config_file w; config_writable := config_writable w;
     unhandled := unhandled w |}.

Definition set_texts_drawn (n : nat) (w : World) : World :=
  {| oracle := oracle w; net_log := net_log w; texts_drawn := n;
     uuids_drawn := uuids_drawn w; event_sources := event_sources w;
     delivered := delivered w; console := console w;
     suspended := suspended w;
     config_file := config_file w; config_writable := config_writable w;
     unhandled := unhandled w |}.

Definition set_uuids_drawn (n : nat) (w : World) : World :=
  {| oracle := oracle w; net_log := net_log w; texts_drawn := texts_drawn w;
     uuids_drawn := n; event_sources := event_sources w;
     delivered := delivered w; console := console w;
     suspended := suspended w;
     config_file := config_file w; config_writable := config_writable w;
     unhandled := unhandled w |}.

Definition set_event_sources (l : list EventSource) (w : World) : World :=
  {| oracle := oracle w; net_log := net_log w; texts_drawn := texts_drawn w;
     uuids_drawn := uuids_drawn w; event_sources := l;
     delivered := delivered w; console := console w;
     suspended := suspended w;
     config_file := config_file w; config_writable := config_writable w;
     unhandled := unhandled w |}.

Definition set_delivered (l : list (nat * Val)) (w : World) : World :=
  {| oracle := oracle w; net_log := net_log w; texts_drawn := texts_drawn w;
     uuids_drawn := uuids_drawn w; event_sources := event_sources w;
     delivered := l; console := console w;
     suspended := suspended w;
     config_file := config_file w; config_writable := config_writable w;
     unhandled := unhandled w |}.

Definition set_console (l : list ConsoleEntry) (w : World) : World :=
  {| oracle := oracle w; net_log := net_log w; texts_drawn := texts_drawn w;
     uuids_drawn := uuids_drawn w; event_sources := event_sources w;
     delivered := delivered w; console := l;
     suspended := suspended w;
     config_file := config_file w; config_writable := config_writable w;
     unhandled := unhandled w |}.

Definition set_config_file (f : FileState) (w : World) : World :=
  {| oracle := oracle w; net_log := net_log w; texts_drawn := texts_drawn w;
     uuids_drawn := uuids_drawn w; event_sources := event_sources w;
     delivered := delivered w; console := console w;
     suspended := suspended w;
     config_file := f; config_writable := config_writable w;
     unhandled := unhandled w |}.

Definition set_suspended (l : list Suspended) (w : World) : World :=
  {| oracle := oracle w; net_log := net_log w; texts_drawn := texts_drawn w;
     uuids_drawn := uuids_drawn w; event_sources := event_sources w;
     delivered := delivered w; console := console w;
     suspended := l;
     config_file := config_file w; config_writable := config_writable w;
     unhandled := unhandled w |}.

Definition set_unhandled (l : list Exn) (w : World) : World :=
  {| oracle := oracle w; net_log := net_log w; texts_drawn := texts_drawn w;
     uuids_drawn := uuids_drawn w; event_sources := event_sources w;
     delivered := delivered w; console := console w;
     suspended := suspended w;
     config_file := config_file w; config_writable := config_writable w;
     unhandled := l |}.

(** [fetch(url, init)]: the request leaves, its promise is the outcome. *)
Definition fetch (url : jsstring) (init : Obj) : M World Outcome :=
  fun w =>
    let req := {| req_url := url; req_init := init |} in
    (Returned (server (oracle w) (net_log w) req),
     set_net_log (net_log w ++ [req]) w).

(** [await promise] *)
Definition await {S} (p : Outcome) : M S Response :=
  match p with
  | Responds r => ret r
  | Rejects m => throw (Rejection m)
  end.

(** [await response.json()] *)
Definition response_json {S} (r : Response) : M S Val :=
  match resp_json r with
  | JsonValue v => ret v
  | JsonRejects m => throw (Rejection m)
  end.

(** [response.ok] *)
Definition response_ok (r : Response) : bool :=
  ((200 <=? status r) && (status r <=? 299))%N.

(** [response.headers.forEach((value, key) => { headers[key] = value })]
    on [headers = {}]. *)
Definition collect_headers (r : Response) : Obj :=
  fold_left (fun acc kv => assign_string (fst kv) (snd kv) acc)
            (resp_headers r) [].

(** [`Status: ${response.status}. ${response?.statusText}`] *)
Definition status_message (r : Response) : jsstring :=
  lit "Status: " ++ dec_of_N (status r) ++ lit ". " ++ statusText r.

Definition console_log (args : list Val) : M World unit :=
  modify (fun w => set_console (console w ++ [ConsoleLog args]) w).

Definition console_error (label : string) (e : Exn) : M World unit :=
  modify (fun w => set_console (console w ++ [ConsoleError label e]) w).

(** Modelled from the spec: [utils/getRandomText] is not among the sources;
    by the spec it yields a new random high-entropy secret.  Each call
    takes the next random text of the world. *)
Definition getRandomText : M World jsstring :=
  fun w => (Returned (random_text (oracle w) (texts_drawn w)),
            set_texts_drawn (S (texts_drawn w)) w).

(** [crypto.randomUUID()], and [uuidV4({ random })] on fresh random bytes. *)
Definition randomUUID : M World jsstring :=
  fun w => (Returned (random_uuid (oracle w) (uuids_drawn w)),
            set_uuids_drawn (S (uuids_drawn w)) w).

(** [new EventSource(url, { fetch })] with [onmessage] calling [consumer]:
    the index of the new source. *)
Definition new_EventSource (url : jsstring) (consumer : nat) : M World nat :=
  fun w =>
    match es_throws (oracle w) (event_sources w) url with
    | Some e => (Threw e, w)
    | None =>
        (Returned (List.length (event_sources w)),
         set_event_sources
           (event_sources w ++
              [{| es_url := url; es_consumer := consumer;
                  es_closed := false |}]) w)
    end.

Fixpoint close_nth (i : nat) (l : list EventSource) : list EventSource :=
  match l, i with
  | [], _ => []
  | e :: l', O =>
      {| es_url := es_url e; es_consumer := es_consumer e;
         es_closed := true |} :: l'
  | e :: l', S j => e :: close_nth j l'
  end.

(** [esLink.close()] *)
Definition EventSource_close (esLink : option nat) : M World unit :=
  match esLink with
  | None => throw (TypeError "Cannot read properties of null: close")
  | Some i => modify (fun w => set_event_sources
                                 (close_nth i (event_sources w)) w)
  end.

(* ================================================================= *)
(** ** Libraries and helpers outside the client *)

(** What the client takes from its runtime and its packages: [elliptic]'s
    [eddsa], Node's base64 decoder, [JSON.stringify], [package.json], and
    the helpers [genSha256] and [formatAsNumber]. *)
Class Platform : Type := {
  eddsa_key : Type;
  eddsa_signature : Type;
  keyFromSecret : jsstring -> eddsa_key;
  getPublic : eddsa_key -> list N;
  sign : eddsa_key -> list N -> eddsa_signature;
  toBytes : eddsa_signature -> list N;
  (** [Buffer.from(str, "base64")], as bytes *)
  Buffer_from_base64 : jsstring -> list N;
  (** [JSON.stringify(value, null, space)] *)
  JSON_stringify : Val -> N -> jsstring;
  genSha256 : jsstring -> jsstring;
  formatAsNumber : jsstring -> Val;
  version : jsstring
}.

(** The URL-safe base64 alphabet. *)
Definition base64url_char (i : N) : N :=
  (if i <? 26 then 65 + i
   else if i <? 52 then 97 + (i - 26)
   else if i <? 62 then 48 + (i - 52)
   else if i =? 62 then 45 else 95)%N.

Definition sextet (n : N) (k : N) : N :=
  base64url_char (N.land (N.shiftr n (6 * k)) 63).

(** Modelled from the spec: [utils/coerceToBase64Url] is not among the
    sources; by the spec it encodes bytes as base64url, with no padding,
    [+] written [-] and [/] written [_]. *)
Fixpoint coerceToBase64Url (bytes : list N) : jsstring :=
  match bytes with
  | a :: b :: c :: rest =>
      let n := N.lor (N.shiftl a 16) (N.lor (N.shiftl b 8) c) in
      sextet n 3 :: sextet n 2 :: sextet n 1 :: sextet n 0
        :: coerceToBase64Url rest
  | [a; b] =>
      let n := N.lor (N.shiftl a 16) (N.shiftl b 8) in
      [sextet n 3; sextet n 2; sextet n 1]
  | [a] =>
      let n := N.shiftl a 16 in
      [sextet n 3; sextet n 2]
  | [] => []
  end.

Record Keys : Type := { signature : jsstring; public_key : jsstring }.

Section Helpers.
Context {P : Platform}.

(** [helpers/generateKeys] *)
Definition generateKeys (passKey : jsstring) (challengeBuf : list N)
  : Keys :=
  let key := keyFromSecret passKey in
  let public_key := getPublic key in
  let signature := toBytes (sign key challengeBuf) in
  {| signature := coerceToBase64Url signature;
     public_key := coerceToBase64Url public_key |}.

(** [utils/base64ToUint8Array]: the latin1 string of the decoded buffer
    has one character per byte, whose code is the byte.  A receiver with
    no [replace] method throws. *)
Definition base64ToUint8Array (str : Val) : Completion (list N) :=
  match str with
  | VStr s =>
      Returned (Buffer_from_base64 (replace_all 95 47 (replace_all 45 43 s)))
  | _ => Threw (TypeError "str.replace is not a function")
  end.
End Helpers.

(* ================================================================= *)
(** ** The signature library in the world *)

(** [elliptic] is a package outside the repository.  A call of it is a
    computation in the world of the runtime: it may draw from the random
    source, as the signature of a randomised scheme does, and it may
    throw. *)
Class Library : Type := {
  library_key : Type;
  library_signature : Type;
  ec_keyFromSecret : jsstring -> M World library_key;
  key_getPublic : library_key -> M World (list N);
  key_sign : library_key -> list N -> M World library_signature;
  signature_toBytes : library_signature -> M World (list N)
}.

(** The library of a platform, whose operations are functions. *)
Definition library_of (P : Platform) : Library := {|
  library_key := eddsa_key;
  library_signature := eddsa_signature;
  ec_keyFromSecret := fun secret => ret (keyFromSecret secret);
  key_getPublic := fun key => ret (getPublic key);
  key_sign := fun key message => ret (sign key message);
  signature_toBytes := fun sig => ret (toBytes sig)
|}.

Module InWorld.
(** [helpers/generateKeys], statement by statement, over a library whose
    calls run in the world. *)
Definition generateKeys {L : Library} (passKey : jsstring)
    (challengeBuf : list N) : M World Keys :=
  key <- ec_keyFromSecret passKey;;
  public_key <- key_getPublic key;;
  signed <- key_sign key challengeBuf;;
  signature <- signature_toBytes signed;;
  ret {| signature := coerceToBase64Url signature;
         public_key := coerceToBase64Url public_key |}.
End InWorld.

(* ================================================================= *)
(** ** [JSON.parse] *)

Definition is_json_ws (c : N) : bool :=
  match c with 32 | 9 | 10 | 13 => true | _ => false end%N.

Fixpoint skip_ws (s : jsstring) : jsstring :=
  match s with
  | c :: s' => if is_json_ws c then skip_ws s' else s
  | [] => []
  end.

Definition is_digit (c : N) : bool := ((48 <=? c) && (c <=? 57))%N.

(** The digits at the head of [s], as a number, their count, and the rest. *)
Fixpoint read_digits (s : jsstring) (acc : Z) (n : Z) : Z * Z * jsstring :=
  match s with
  | c :: s' =>
      if is_digit c
      then read_digits s' (10 * acc + Z.of_N (c - 48))%Z (n + 1)%Z
      else (acc, n, s)
  | [] => (acc, n, [])
  end.

Definition hex_value (c : N) : option N :=
  (if is_digit c then Some (c - 48)
   else if (65 <=? c) && (c <=? 70) then Some (c - 55)
   else if (97 <=? c) && (c <=? 102) then Some (c - 87)
   else None)%N.

Definition hex4 (a b c d : N) : option N :=
  match hex_value a, hex_value b, hex_value c, hex_value d with
  | Some x, Some y, Some z, Some w =>
      Some (N.lor (N.shiftl x 12) (N.lor (N.shiftl y 8)
                                         (N.lor (N.shiftl z 4) w)))
  | _, _, _, _ => None
  end.

Definition simple_escape (c : N) : option N :=
  match c with
  | 34 => Some 34 | 92 => Some 92 | 47 => Some 47
  | 98 => Some 8 | 102 => Some 12 | 110 => Some 10
  | 114 => Some 13 | 116 => Some 9
  | _ => None
  end%N.

(** The characters of a string after its opening quote. *)
Fixpoint parse_string (s : jsstring) (acc : jsstring)
  : option (jsstring * jsstring) :=
  match s with
  | [] => None
  | 34%N :: r => Some (rev acc, r)
  | 92%N :: 117%N :: a :: b :: c :: d :: r =>
      match hex4 a b c d with
      | Some u => parse_string r (u :: acc)
      | None => None
      end
  | 92%N :: e :: r =>
      match simple_escape e with
      | Some u => parse_string r (u :: acc)
      | None => None
      end
  | c :: r => if (c <? 32)%N then None else parse_string r (c :: acc)
  end.

Definition parse_exponent (s : jsstring) : option (Z * jsstring) :=
  match s with
  | 101%N :: r | 69%N :: r =>
      let '(neg, r1) := match r with
                        | 45%N :: r' => (true, r')
                        | 43%N :: r' => (false, r')
                        | _ => (false, r)
                        end in
      let '(x, n, r2) := read_digits r1 0%Z 0%Z in
      if (n =? 0)%Z then None
      else Some (if neg then (- x)%Z else x, r2)
  | _ => Some (0%Z, s)
  end.

Definition parse_number (s : jsstring) : option (Val * jsstring) :=
  let '(neg, s1) := match s with
                    | 45%N :: r => (true, r)
                    | _ => (false, s)
                    end in
  let int_part :=
    match s1 with
    | 48%N :: r => Some (0%Z, r)
    | c :: _ => if is_digit c
                then let '(x, _, r) := read_digits s1 0%Z 0%Z in Some (x, r)
                else None
    | [] => None
    end in
  match int_part with
  | None => None
  | Some (i, s2) =>
      let frac :=
        match s2 with
        | 46%N :: r =>
            let '(x, n, r') := read_digits r i 0%Z in
            if (n =? 0)%Z then None else Some (x, n, r')
        | _ => Some (i, 0%Z, s2)
        end in
      match frac with
      | None => None
      | Some (m, n, s3) =>
          match parse_exponent s3 with
          | None => None
          | Some (x, s4) =>
              Some (VNum (if neg then (- m)%Z else m) (x - n)%Z, s4)
          end
      end
  end.

(** A JSON value at the head of [s], and the rest.  Every call spends one
    unit of fuel, and two calls in a row consume a character. *)
Fixpoint parse_value (fuel : nat) (s : jsstring) : option (Val * jsstring) :=
  match fuel with
  | O => None
  | S f =>
      match skip_ws s with
      | 110%N :: 117%N :: 108%N :: 108%N :: r => Some (VNull, r)
      | 116%N :: 114%N :: 117%N :: 101%N :: r => Some (VBool true, r)
      | 102%N :: 97%N :: 108%N :: 115%N :: 101%N :: r =>
          Some (VBool false, r)
      | 34%N :: r =>
          match parse_string r [] with
          | Some (str, r') => Some (VStr str, r')
          | None => None
          end
      | 91%N :: r =>
          match skip_ws r with
          | 93%N :: r' => Some (VArr [], r')
          | _ => parse_elements f r []
          end
      | 123%N :: r =>
          match skip_ws r with
          | 125%N :: r' => Some (VObj [], r')
          | _ => parse_members f r []
          end
      | s' => parse_number s'
      end
  end
with parse_elements (fuel : nat) (s : jsstring) (acc : list Val)
  : option (Val * jsstring) :=
  match fuel with
  | O => None
  | S f =>
      match parse_value f s with
      | Some (v, r) =>
          match skip_ws r with
          | 44%N :: r' => parse_elements f r' (v :: acc)
          | 93%N :: r' => Some (VArr (rev (v :: acc)), r')
          | _ => None
          end
      | None => None
      end
  end
with parse_members (fuel : nat) (s : jsstring) (acc : Obj)
  : option (Val * jsstring) :=
  match fuel with
  | O => None
  | S f =>
      match skip_ws s with
      | 34%N :: r =>
          match parse_string r [] with
          | Some (k, r1) =>
              match skip_ws r1 with
              | 58%N :: r2 =>
                  match parse_value f r2 with
                  | Some (v, r3) =>
                      match skip_ws r3 with
                      | 44%N :: r4 => parse_members f r4 (obj_set k v acc)
                      | 125%N :: r4 => Some (VObj (obj_set k v acc), r4)
                      | _ => None
                      end
                  | None => None
                  end
              | _ => None
              end
          | None => None
          end
      | _ => None
      end
  end.

(** [JSON.parse(text)]: [None] when it throws a [SyntaxError]. *)
Definition JSON_parse (text : jsstring) : option Val :=
  match parse_value (2 * List.length text + 2) text with
  | Some (v, r) => match skip_ws r with [] => Some v | _ => None end
  | None => None
  end.

(* ================================================================= *)
(** ** State of a client in its world *)

Record State (C : Type) : Type := { this : C; world : World }.

Definition in_world {C A} (c : M World A) : M (State C) A :=
  fun st =>
    let '(r, w) := c (world st) in (r, {| this := this st; world := w |}).

Definition read {C} : M (State C) C := fun st => (Returned (this st), st).

Definition update {C} (f : C -> C) : M (State C) unit :=
  fun st => (Returned tt, {| this := f (this st); world := world st |}).

(** [this.sessionId ? .. : ..] on a field of type [string | null]. *)
Definition active (sessionId : option jsstring) : bool :=
  match sessionId with
  | Some (_ :: _) => true
  | _ => false
  end.

(** [...(sessionId ? { Cookie: `sid=${sessionId}` } : {})] *)
Definition cookie_header (sessionId : option jsstring) : Obj :=
  match sessionId with
  | Some (c :: s) => [(lit "Cookie", VStr (lit "sid=" ++ c :: s))]
  | _ => []
  end.

(** [response.result && response.result !== "Failure"] *)
Definition succeeded (response : Val) : bool :=
  match get_prop response "result" with
  | Returned result => truthy result && negb (is_string result (lit "Failure"))
  | Threw _ => false
  end.

(* ================================================================= *)
(** ** Methods that [V2] and [V3] share word for word *)

Definition validationErrorResponse (message : string) : Val :=
  VObj [(lit "result", VNull);
        (lit "error", VObj [(lit "code", VNum (-1) 0);
                            (lit "message", VStr (lit message))])].

(** [getMessageFromEvent(message)] *)
Definition getMessageFromEvent (message : Val) : M World Val :=
  console_log [VStr (lit "Message received:"); message];;
  match message with
  | VStr text =>
      match JSON_parse text with
      | Some jsonValue => ret jsonValue
      | None =>
          console_error "Error parsing message:" (SyntaxError "JSON.parse");;
          ret VNull
      end
  | _ => console_log [message];; ret VUndef
  end.

(** The [onmessage] handler that [Subscribe] installs, when source [i]
    receives an event carrying [data]; a closed source receives none. *)
Definition onmessage (i : nat) (data : Val) : M World unit :=
  fun w =>
    match nth_error (event_sources w) i with
    | Some es =>
        if es_closed es then (Returned tt, w)
        else
          (message <- getMessageFromEvent data;;
           modify (fun w' => set_delivered
                               (delivered w' ++ [(es_consumer es, message)])
                               w')) w
    | None => (Returned tt, w)
    end.

(** [loginResponse.headers['set-cookie'].match(/sid=([^;]+)/)[1]] *)
Definition set_cookie_sid {S} (loginResponse : Val) : M S jsstring :=
  headers <- complete (get_prop loginResponse "headers");;
  cookie <- complete (get_prop headers "set-cookie");;
  match cookie with
  | VStr s =>
      match match_sid s with
      | Some sid => ret sid
      | None => throw (TypeError "Cannot read properties of null: 1")
      end
  | VUndef => throw (TypeError "Cannot read properties of undefined: match")
  | VNull => throw (TypeError "Cannot read properties of null: match")
  | _ => throw (TypeError "match is not a function")
  end.

Definition json_headers : Obj :=
  [(lit "Accept", VStr (lit "application/json"));
   (lit "Content-Type", VStr (lit "application/json"))].

(** The object literal [{ error: { message }, headers }]. *)
Definition error_response (message headers : Val) : Val :=
  VObj [(lit "error", VObj [(lit "message", message)]);
        (lit "headers", headers)].

(* ================================================================= *)
(** ** [V2]: the client configured by its base URL *)

Module V2.
Section Client.
Context {P : Platform}.

Record Client : Type := {
  BaseUrl : jsstring;
  esLink : option nat;
  isConnectedES : bool;
  sessionId : option jsstring;
  deviceGuid : option jsstring
}.

Definition set_esLink (l : option nat) (c : Client) : Client :=
  {| BaseUrl := BaseUrl c; esLink := l; isConnectedES := isConnectedES c;
     sessionId := sessionId c; deviceGuid := deviceGuid c |}.

Definition set_sessionId (s : option jsstring) (c : Client) : Client :=
  {| BaseUrl := BaseUrl c; esLink := esLink c;
     isConnectedES := isConnectedES c;
     sessionId := s; deviceGuid := deviceGuid c |}.

Definition set_deviceGuid (g : option jsstring) (c : Client) : Client :=
  {| BaseUrl := BaseUrl c; esLink := esLink c;
     isConnectedES := isConnectedES c;
     sessionId := sessionId c; deviceGuid := g |}.

Definition St := State Client.

(** [new AuthProxyClient(baseUrl)] *)
Definition construct (baseUrl : jsstring) (w : World) : St :=
  {| this := {| BaseUrl := baseUrl; esLink := None; isConnectedES := false;
                sessionId := None; deviceGuid := None |};
     world := w |}.

Definition GetSessionId : M St (option jsstring) :=
  c <- read;; ret (sessionId c).

Definition ApiRequest (url : jsstring) (init : Obj) : M St Val :=
  try_catch
    (c <- read;;
     request <- in_world
       (fetch (BaseUrl c ++ url)
          (obj_set (lit "headers")
             (VObj (obj_merge
                      (obj_merge json_headers
                                 (spread (obj_get (lit "headers") init)))
                      (cookie_header (sessionId c))))
             (obj_merge [(lit "credentials", VStr (lit "include"))] init)));;
     response <- await request;;
     if response_ok response then
       body <- response_json response;;
       ret (VObj (obj_set (lit "headers") (VObj (collect_headers response))
                          (spread body)))
     else
       ret (error_response (VStr (status_message response)) (VObj [])))
    (fun e => ret (error_response (exn_message e) VNull)).

Definition getDeviceGuid : M St jsstring :=
  c <- read;;
  match deviceGuid c with
  | Some (x :: g) => ret (x :: g)
  | _ =>
      g <- in_world randomUUID;;
      update (set_deviceGuid (Some g));;
      ret g
  end.

Definition SignInUserKey (userKey : jsstring) : M St Val :=
  match trim userKey with
  | [] => ret (validationErrorResponse "User key must be not empty")
  | _ =>
      loginOptionResponse <-
        ApiRequest (lit "auth/v1/login_options")
                   [(lit "method", VStr (lit "GET"))];;
      authOptions <- complete (get_prop loginOptionResponse "result");;
      if negb (truthy authOptions) then
        error <- complete (get_prop loginOptionResponse "error");;
        ret (VObj [(lit "result", VNull); (lit "error", error)])
      else
        challenge <- complete (get_prop authOptions "challenge");;
        challengeBuf <- complete (base64ToUint8Array challenge);;
        let keys := generateKeys userKey challengeBuf in
        challenge_id <- complete (get_prop authOptions "challenge_id");;
        let data :=
          VObj [(lit "challenge_id", challenge_id);
                (lit "credential", VNull);
                (lit "public_key", VStr (public_key keys));
                (lit "signature", VStr (signature keys))] in
        device_guid <- getDeviceGuid;;
        loginResponse <-
          ApiRequest (lit "auth/v1/login")
            [(lit "method", VStr (lit "POST"));
             (lit "body", VStr (JSON_stringify data 0));
             (lit "headers",
              VObj [(lit "resolution", VStr (lit "1x1"));
                    (lit "device_guid", VStr device_guid)])];;
        (if succeeded loginResponse then
           sid <- set_cookie_sid loginResponse;;
           update (set_sessionId (Some sid))
         else ret tt);;
        ret loginResponse
  end.

Definition GetInfo : M St Val :=
  ApiRequest (lit "auth/v1/get_info") [(lit "method", VStr (lit "GET"))].

Definition GetLoginLog : M St Val :=
  ApiRequest (lit "auth/v1/login_log") [(lit "method", VStr (lit "GET"))].

Definition ResetPassword (phone : jsstring) : M St Val :=
  if negb (truthy (formatAsNumber (trim phone))) then
    ret (validationErrorResponse "Phone must be not empty")
  else
    device_guid <- getDeviceGuid;;
    ApiRequest (lit "auth/v1/reset_password?phone=" ++ phone)
      [(lit "method", VStr (lit "GET"));
       (lit "headers",
        VObj [(lit "resolution", VStr (lit "1x1"));
              (lit "device_guid", VStr device_guid)])].

Definition InitializeNewKey (emailCode : jsstring) : M St Val :=
  match trim emailCode with
  | [] => ret (validationErrorResponse "Email code must be not empty")
  | _ =>
      ApiRequest
        (lit "auth/v1/register_options" ++
         match emailCode with
         | [] => []
         | _ => lit "?code=" ++ emailCode
         end)
        [(lit "method", VStr (lit "GET"))]
  end.

(** [!otp.trim() && otp.length !== 6] *)
Definition otp_rejected (otp : jsstring) : bool :=
  match trim otp with
  | [] => negb (Nat.eqb (List.length otp) 6)
  | _ => false
  end.

Definition CreateUserKey (otp : jsstring) (options : Val) : M St Val :=
  if otp_rejected otp then
    ret (validationErrorResponse "OTP must be not empty")
  else
    fido2_options <- complete (get_prop options "fido2_options");;
    challenge <- complete (get_prop fido2_options "challenge");;
    challengeBuf <- complete (base64ToUint8Array challenge);;
    randomText <- in_world getRandomText;;
    let passKey := genSha256 randomText in
    let keys := generateKeys passKey challengeBuf in
    challenge_id <- complete (get_prop options "challenge_id");;
    let data :=
      VObj [(lit "challenge_id", challenge_id);
            (lit "code", VStr (trim otp));
            (lit "public_key", VStr (public_key keys));
            (lit "signature", VStr (signature keys))] in
    response <-
      ApiRequest (lit "auth/v1/register_key")
        [(lit "method", VStr (lit "POST"));
         (lit "body", VStr (JSON_stringify data 0))];;
    if succeeded response then
      ret (VObj [(lit "result", VStr passKey); (lit "error", VNull)])
    else ret response.

Definition Subscribe (handleMessage : nat) : M St bool :=
  c <- read;;
  if isConnectedES c || negb (active (sessionId c)) then ret false
  else
    try_catch
      (es <- in_world
               (new_EventSource (BaseUrl c ++ lit "auth/v1/Subscribe")
                                handleMessage);;
       update (set_esLink (Some es));;
       ret true)
      (fun error =>
         in_world (console_error "EventSource error:" error);;
         ret false).

Definition Unsubscribe : M St bool :=
  c <- read;;
  if negb (isConnectedES c) then ret false
  else
    in_world (EventSource_close (esLink c));;
    ret true.

Definition Logout : M St Val :=
  ApiRequest (lit "auth/v1/logout") [(lit "method", VStr (lit "GET"))].
End Client.
End V2.

(* ================================================================= *)
(** ** [V3]: the client constructed from a user key, reconnecting on 401 *)

Module V3.
Section Client.
Context {P : Platform}.

Record Client : Type := {
  BaseUrl : jsstring;
  userKey : jsstring;
  esLink : option nat;
  isConnected : bool;
  isConnectedES : bool;
  sessionId : option jsstring;
  deviceGuid : Val
}.

Definition set_esLink (l : option nat) (c : Client) : Client :=
  {| BaseUrl := BaseUrl c; userKey := userKey c; esLink := l;
     isConnected := isConnected c; isConnectedES := isConnectedES c;
     sessionId := sessionId c; deviceGuid := deviceGuid c |}.

Definition set_isConnected (b : bool) (c : Client) : Client :=
  {| BaseUrl := BaseUrl c; userKey := userKey c; esLink := esLink c;
     isConnected := b; isConnectedES := isConnectedES c;
     sessionId := sessionId c; deviceGuid := deviceGuid c |}.

Definition set_isConnectedES (b : bool) (c : Client) : Client :=
  {| BaseUrl := BaseUrl c; userKey := userKey c; esLink := esLink c;
     isConnected := isConnected c; isConnectedES := b;
     sessionId := sessionId c; deviceGuid := deviceGuid c |}.

Definition set_sessionId (s : option jsstring) (c : Client) : Client :=
  {| BaseUrl := BaseUrl c; userKey := userKey c; esLink := esLink c;
     isConnected := isConnected c; isConnectedES := isConnectedES c;
     sessionId := s; deviceGuid := deviceGuid c |}.

Definition set_deviceGuid (g : Val) (c : Client) : Client :=
  {| BaseUrl := BaseUrl c; userKey := userKey c; esLink := esLink c;
     isConnected := isConnected c; isConnectedES := isConnectedES c;
     sessionId := sessionId c; deviceGuid := g |}.

Definition St := State Client.

(** [new AuthProxyClient(userKey, baseUrl)] *)
Definition construct (key baseUrl : jsstring) (w : World) : St :=
  {| this := {| BaseUrl := baseUrl; userKey := key; esLink := None;
                isConnected := false; isConnectedES := false;
                sessionId := None; deviceGuid := VNull |};
     world := w |}.

Definition GetSessionId : M St (option jsstring) :=
  c <- read;; ret (sessionId c).

(** [ApiRequest], up to and with [const request = fetch(..)]. *)
Definition ApiRequest_fetch (url : jsstring) (init : Obj) : M St Outcome :=
  c <- read;;
  in_world
    (fetch (BaseUrl c ++ url)
       (obj_set (lit "headers")
          (VObj (obj_merge
                   (obj_merge json_headers
                              (spread (obj_get (lit "headers") init)))
                   (cookie_header (sessionId c))))
          (obj_merge [(lit "credentials", VStr (lit "include"))] init))).

Definition login_options_init : Obj := [(lit "method", VStr (lit "GET"))].

(** [this.Connect(true)] as a statement, its promise dropped: the call
    runs until its first [await] and is left suspended there.  With
    [force] set, [Connect] goes to [SignInUserKey(this.userKey)], which
    either returns its validation error at once or sends the request for
    the login options and awaits it. *)
Definition Connect_unawaited : M St unit :=
  c <- read;;
  match trim (userKey c) with
  | [] => ret tt
  | _ =>
      request <- ApiRequest_fetch (lit "auth/v1/login_options")
                                  login_options_init;;
      in_world
        (modify (fun w =>
           set_suspended
             (suspended w ++
                [{| awaited := request; key_in_use := userKey c |}]) w))
  end.

(** [ApiRequest], from [var response = await request] on. *)
Definition ApiRequest_settle (request : Outcome) : M St Val :=
  try_catch
    (response <- await request;;
     response <-
       (if (status response =? 401)%N then
          update (set_isConnected false);;
          Connect_unawaited;;
          await request
        else ret response);;
     if response_ok response then
       body <- response_json response;;
       ret (VObj (obj_set (lit "headers") (VObj (collect_headers response))
                          (spread body)))
     else
       ret (error_response (VStr (status_message response)) (VObj [])))
    (fun e => ret (error_response (exn_message e) VNull)).

Definition ApiRequest (url : jsstring) (init : Obj) : M St Val :=
  request <- ApiRequest_fetch url init;;
  ApiRequest_settle request.

Definition read_config : M World Val :=
  fun w =>
    match config_file w with
    | NoFile => (Returned (VObj []), w)
    | Unreadable => (Threw (SystemError "readFileSync"), w)
    | FileText fileContent =>
        match JSON_parse fileContent with
        | Some v => (Returned v, w)
        | None => (Threw (SyntaxError "JSON.parse"), w)
        end
    end.

Definition write_config (text : jsstring) : M World unit :=
  fun w =>
    if config_writable w then (Returned tt, set_config_file (FileText text) w)
    else (Threw (SystemError "writeFileSync"), w).

Definition getDeviceGuid : M St Val :=
  c <- read;;
  if truthy (deviceGuid c) then ret (deviceGuid c)
  else
    configData <- in_world
      (try_catch read_config
         (fun error =>
            console_error "Error reading authProxyConfig.json:" error;;
            ret (VObj [])));;
    found <- complete (get_prop configData "deviceGuid");;
    if truthy found then
      update (set_deviceGuid found);;
      ret found
    else
      uuid <- in_world randomUUID;;
      update (set_deviceGuid (VStr uuid));;
      let newConfigData :=
        VObj (obj_set (lit "deviceGuid") (VStr uuid) (spread configData)) in
      in_world
        (try_catch (write_config (JSON_stringify newConfigData 2))
           (fun error =>
              console_error
                "Error trying create authProxyConfig.json file:" error));;
      ret (VStr uuid).

(** [SignInUserKey], from the [await] of its first [ApiRequest] on, the
    request of that call being [request]. *)
Definition SignInUserKey_resume (key : jsstring) (request : Outcome)
  : M St Val :=
  loginOptionResponse <- ApiRequest_settle request;;
  authOptions <- complete (get_prop loginOptionResponse "result");;
  if negb (truthy authOptions) then
    error <- complete (get_prop loginOptionResponse "error");;
    ret (VObj [(lit "result", VNull); (lit "error", error)])
  else
    challenge <- complete (get_prop authOptions "challenge");;
    challengeBuf <- complete (base64ToUint8Array challenge);;
    let keys := generateKeys key challengeBuf in
    challenge_id <- complete (get_prop authOptions "challenge_id");;
    let data :=
      VObj [(lit "challenge_id", challenge_id);
            (lit "credential", VNull);
            (lit "public_key", VStr (public_key keys));
            (lit "signature", VStr (signature keys))] in
    device_guid <- getDeviceGuid;;
    loginResponse <-
      ApiRequest (lit "auth/v1/login")
        [(lit "method", VStr (lit "POST"));
         (lit "body", VStr (JSON_stringify data 0));
         (lit "headers",
          VObj [(lit "resolution", VStr (lit "console"));
                (lit "device_guid", device_guid);
                (lit "User-Agent",
                 VStr (lit "AuthProxy SDK v." ++ version))])];;
    (if succeeded loginResponse then
       sid <- set_cookie_sid loginResponse;;
       update (set_sessionId (Some sid));;
       update (set_isConnected true)
     else ret tt);;
    ret loginResponse.

Definition SignInUserKey (key : jsstring) : M St Val :=
  match trim key with
  | [] => ret (validationErrorResponse "User key must be not empty")
  | _ =>
      request <- ApiRequest_fetch (lit "auth/v1/login_options")
                                  login_options_init;;
      SignInUserKey_resume key request
  end.

(** [!response.error && response.result !== 'Failure'] *)
Definition connected (response : Val) : bool :=
  match get_prop response "error", get_prop response "result" with
  | Returned error, Returned result =>
      negb (truthy error) && negb (is_string result (lit "Failure"))
  | _, _ => false
  end.

Definition Connect (force : bool) : M St bool :=
  c <- read;;
  if negb force && isConnected c then ret (isConnected c)
  else
    response <- SignInUserKey (userKey c);;
    ret (connected response).

(** The event loop comes back to the oldest suspended call: it runs to
    its end, and a rejection of its promise is handled by nobody. *)
Definition resume_suspended : M St unit :=
  fun st =>
    match suspended (world st) with
    | [] => (Returned tt, st)
    | call :: rest =>
        try_catch
          (in_world (modify (set_suspended rest));;
           response <- SignInUserKey_resume (key_in_use call)
                                            (awaited call);;
           ret tt)
          (fun e => in_world
             (modify (fun w => set_unhandled (unhandled w ++ [e]) w)))
          st
    end.

Fixpoint resume_all (fuel : nat) : M St unit :=
  match fuel with
  | O => ret tt
  | S f => resume_suspended;; resume_all f
  end.

Definition GetInfo : M St Val :=
  ApiRequest (lit "auth/v1/get_info") [(lit "method", VStr (lit "GET"))].

Definition GetLoginLog : M St Val :=
  ApiRequest (lit "auth/v1/login_log") [(lit "method", VStr (lit "GET"))].

Definition Logout : M St Val :=
  ApiRequest (lit "auth/v1/logout") [(lit "method", VStr (lit "GET"))].

Definition Subscribe (handleMessage : nat) : M St bool :=
  c <- read;;
  if isConnectedES c || negb (active (sessionId c)) then ret false
  else
    try_catch
      (es <- in_world
               (new_EventSource (BaseUrl c ++ lit "auth/v1/Subscribe")
                                handleMessage);;
       update (set_esLink (Some es));;
       update (set_isConnectedES true);;
       ret true)
      (fun error =>
         in_world (console_error "EventSource error:" error);;
         ret false).

Definition Unsubscribe : M St bool :=
  c <- read;;
  if negb (isConnectedES c) then ret false
  else
    in_world (EventSource_close (esLink c));;
    update (set_isConnectedES false);;
    ret true.
Definition ResetPassword (phone : jsstring) : M St Val :=
  if negb (truthy (formatAsNumber (trim phone))) then
    ret (validationErrorResponse "Phone must be not empty")
  else
    device_guid <- getDeviceGuid;;
    ApiRequest (lit "auth/v1/reset_password?phone=" ++ phone)
      [(lit "method", VStr (lit "GET"));
       (lit "headers",
        VObj [(lit "resolution", VStr (lit "console"));
              (lit "device_guid", device_guid);
              (lit "User-Agent",
               VStr (lit "AuthProxy SDK v." ++ version))])].

Definition InitializeNewKey (emailCode : jsstring) : M St Val :=
  match trim emailCode with
  | [] => ret (validationErrorResponse "Email code must be not empty")
  | _ =>
      ApiRequest
        (lit "auth/v1/register_options" ++
         match emailCode with
         | [] => []
         | _ => lit "?code=" ++ emailCode
         end)
        [(lit "method", VStr (lit "GET"))]
  end.

(** [!otp.trim() && otp.length !== 6] *)
Definition otp_rejected (otp : jsstring) : bool :=
  match trim otp with
  | [] => negb (Nat.eqb (List.length otp) 6)
  | _ => false
  end.

Definition CreateUserKey (otp : jsstring) (options : Val) : M St Val :=
  if otp_rejected otp then
    ret (validationErrorResponse "OTP must be not empty")
  else
    fido2_options <- complete (get_prop options "fido2_options");;
    challenge <- complete (get_prop fido2_options "challenge");;
    challengeBuf <- complete (base64ToUint8Array challenge);;
    randomText <- in_world getRandomText;;
    let passKey := genSha256 randomText in
    let keys := generateKeys passKey challengeBuf in
    challenge_id <- complete (get_prop options "challenge_id");;
    let data :=
      VObj [(lit "challenge_id", challenge_id);
            (lit "code", VStr (trim otp));
            (lit "public_key", VStr (public_key keys));
            (lit "signature", VStr (signature keys))] in
    response <-
      ApiRequest (lit "auth/v1/register_key")
        [(lit "method", VStr (lit "POST"));
         (lit "body", VStr (JSON_stringify data 0))];;
    if succeeded response then
      ret (VObj [(lit "result", VStr passKey); (lit "error", VNull)])
    else ret response.
End Client.
End V3.

(* ================================================================= *)
(** ** [V1]: the client over the module-level transport *)

Module V1.
Section Client.
Context {P : Platform}.

(** The field of the class, the variable [sid] of [api-request], and
    [process.env['AUTH_API_URL']]. *)
Record Client : Type := {
  sessionId : option jsstring;
  sid : option jsstring;
  AUTH_API_URL : option jsstring
}.

Definition St := State Client.

Definition set_session (s : jsstring) (c : Client) : Client :=
  {| sessionId := Some s; sid := Some s; AUTH_API_URL := AUTH_API_URL c |}.

(** [apiUrl + url] *)
Definition api_url (c : Client) (url : jsstring) : jsstring :=
  match AUTH_API_URL c with
  | Some apiUrl => apiUrl ++ url
  | None => lit "undefined" ++ url
  end.

Definition ApiRequest (url : jsstring) (init : Obj) : M St Val :=
  try_catch
    (c <- read;;
     request <- in_world
       (fetch (api_url c url)
          (obj_set (lit "headers")
             (VObj (obj_merge (spread (obj_get (lit "headers") init))
                              (cookie_header (sid c))))
             init));;
     response <- await request;;
     if response_ok response then
       body <- response_json response;;
       ret (VObj (obj_set (lit "headers") (VObj (collect_headers response))
                          (spread body)))
     else
       ret (error_response (VStr (status_message response)) (VObj [])))
    (fun e => ret (error_response (exn_message e) VNull)).

Definition apiLoginOptions : M St Val :=
  ApiRequest (lit "auth/v1/login_options")
    [(lit "method", VStr (lit "GET"));
     (lit "credentials", VStr (lit "include"));
     (lit "headers", VObj [(lit "Accept", VStr (lit "application/json"))])].

Definition apiLogin (data : Val) : M St Val :=
  ApiRequest (lit "auth/v1/login")
    [(lit "method", VStr (lit "POST"));
     (lit "credentials", VStr (lit "include"));
     (lit "body", VStr (JSON_stringify data 0));
     (lit "headers", VObj (json_headers ++ [(lit "device_guid", VNull)]))].

Definition RegisterKey (data : Val) : M St Val :=
  ApiRequest (lit "auth/v1/register_key")
    [(lit "method", VStr (lit "POST"));
     (lit "credentials", VStr (lit "include"));
     (lit "body", VStr (JSON_stringify data 0));
     (lit "headers", VObj json_headers)].

Definition SignInUserKey (userKey : jsstring) : M St Val :=
  match trim userKey with
  | [] => ret VNull
  | _ =>
      loginOptionResponse <- apiLoginOptions;;
      authOptions <- complete (get_prop loginOptionResponse "result");;
      if negb (truthy authOptions) then ret VNull
      else
        challenge <- complete (get_prop authOptions "challenge");;
        challengeBuf <- complete (base64ToUint8Array challenge);;
        let keys := generateKeys userKey challengeBuf in
        challenge_id <- complete (get_prop authOptions "challenge_id");;
        let data :=
          VObj [(lit "challenge_id", challenge_id);
                (lit "credential", VNull);
                (lit "public_key", VStr (public_key keys));
                (lit "signature", VStr (signature keys))] in
        loginResponse <- apiLogin data;;
        if succeeded loginResponse then
          s <- set_cookie_sid loginResponse;;
          update (set_session s);;
          complete (get_prop loginResponse "result")
        else ret VNull
  end.

Definition otp_rejected (otp : jsstring) : bool :=
  match trim otp with
  | [] => negb (Nat.eqb (List.length otp) 6)
  | _ => false
  end.

Definition CreateUserKey (otp : jsstring) (options : Val) : M St Val :=
  if otp_rejected otp then ret VNull
  else
    fido2_options <- complete (get_prop options "fido2_options");;
    challenge <- complete (get_prop fido2_options "challenge");;
    challengeBuf <- complete (base64ToUint8Array challenge);;
    randomText <- in_world getRandomText;;
    let passKey := genSha256 randomText in
    let keys := generateKeys passKey challengeBuf in
    challenge_id <- complete (get_prop options "challenge_id");;
    let data :=
      VObj [(lit "challenge_id", challenge_id);
            (lit "code", VStr (trim otp));
            (lit "public_key", VStr (public_key keys));
            (lit "signature", VStr (signature keys))] in
    response <- RegisterKey data;;
    if succeeded response then ret (VStr passKey)
    else complete (get_prop response "error").

(** The [init] of the calls that only read. *)
Definition get_init (headers : Obj) : Obj :=
  [(lit "method", VStr (lit "GET"));
   (lit "credentials", VStr (lit "include"));
   (lit "headers", VObj headers)].

Definition accept_json : Obj :=
  [(lit "Accept", VStr (lit "application/json"))].

Definition apiGetInfo : M St Val :=
  ApiRequest (lit "auth/v1/get_info") (get_init accept_json).

Definition apiLoginLog : M St Val :=
  ApiRequest (lit "auth/v1/login_log") (get_init accept_json).

(** [ResetPassword] of [api], which the method of the same name calls. *)
Definition apiResetPassword (phone : jsstring) : M St Val :=
  ApiRequest (lit "auth/v1/reset_password?phone=" ++ phone)
             (get_init accept_json).

(** [emailCode ? `?code=${emailCode}` : ""] on [string | null]. *)
Definition code_query (emailCode : option jsstring) : jsstring :=
  match emailCode with
  | Some (c :: code) => lit "?code=" ++ c :: code
  | _ => []
  end.

Definition apiRegisterOptions (emailCode : option jsstring) : M St Val :=
  ApiRequest (lit "auth/v1/register_options" ++ code_query emailCode)
             (get_init accept_json).

Definition apiLogout : M St Val :=
  ApiRequest (lit "auth/v1/logout") (get_init json_headers).

Definition GetInfo : M St Val :=
  response <- apiGetInfo;;
  result <- complete (get_prop response "result");;
  error <- complete (get_prop response "error");;
  if truthy result || negb (truthy error) then ret result else ret error.

Definition GetLoginLog : M St Val :=
  response <- apiLoginLog;;
  result <- complete (get_prop response "result");;
  error <- complete (get_prop response "error");;
  if truthy result || negb (truthy error) then ret result else ret error.

Definition ResetPassword (phone : jsstring) : M St Val :=
  if negb (truthy (formatAsNumber (trim phone))) then ret VNull
  else
    response <- apiResetPassword phone;;
    result <- complete (get_prop response "result");;
    if truthy result || negb (is_string result (lit "Failure"))
    then ret result
    else ret VNull.

Definition InitializeNewKey (code : jsstring) : M St Val :=
  match trim code with
  | [] => ret VNull
  | _ =>
      response <- apiRegisterOptions (Some code);;
      result <- complete (get_prop response "result");;
      if truthy result then ret result else ret VNull
  end.

Definition Logout : M St Val :=
  response <- apiLogout;;
  result <- complete (get_prop response "result");;
  error <- complete (get_prop response "error");;
  if truthy result || negb (truthy error) then ret result else ret VNull.
End Client.
End V1.

(* ================================================================= *)
(** ** The calls a [V2] client receives, and its reachable states *)

Module V2Run.
Section Run.
Context {P : Platform}.

Inductive Call : Type :=
| GetSessionId
| SignInUserKey (userKey : jsstring)
| GetInfo
| GetLoginLog
| ResetPassword (phone : jsstring)
| InitializeNewKey (emailCode : jsstring)
| CreateUserKey (otp : jsstring) (options : Val)
| Subscribe (handleMessage : nat)
| Unsubscribe
| Logout
| Message (source : nat) (data : Val).  (** an event of the server *)

Definition exec (c : Call) : M V2.St unit :=
  match c with
  | GetSessionId => V2.GetSessionId;; ret tt
  | SignInUserKey userKey => V2.SignInUserKey userKey;; ret tt
  | GetInfo => V2.GetInfo;; ret tt
  | GetLoginLog => V2.GetLoginLog;; ret tt
  | ResetPassword phone => V2.ResetPassword phone;; ret tt
  | InitializeNewKey emailCode => V2.InitializeNewKey emailCode;; ret tt
  | CreateUserKey otp options => V2.CreateUserKey otp options;; ret tt
  | Subscribe handleMessage => V2.Subscribe handleMessage;; ret tt
  | Unsubscribe => V2.Unsubscribe;; ret tt
  | Logout => V2.Logout;; ret tt
  | Message source data => in_world (onmessage source data)
  end.

(** The states of a client made by [new AuthProxyClient(baseUrl)] in the
    world [w], one call after the other; a call that throws leaves the
    state it had reached. *)
Inductive reachable (baseUrl : jsstring) (w : World) : V2.St -> Prop :=
| reach_new : reachable baseUrl w (V2.construct baseUrl w)
| reach_call st c :
    reachable baseUrl w st -> reachable baseUrl w (snd (exec c st)).

(** [Subscribe] once for each consumer, in a row. *)
Fixpoint Subscribe_each (consumers : list nat) : M V2.St (list bool) :=
  match consumers with
  | [] => ret []
  | handleMessage :: rest =>
      opened <- V2.Subscribe handleMessage;;
      others <- Subscribe_each rest;;
      ret (opened :: others)
  end.
End Run.
End V2Run.

(* ================================================================= *)
(** ** The calls a [V3] client receives, and its reachable states *)

Module V3Run.
Section Run.
Context {P : Platform}.

Inductive Call : Type :=
| GetSessionId
| SignInUserKey (userKey : jsstring)
| Connect (force : bool)
| GetInfo
| GetLoginLog
| ResetPassword (phone : jsstring)
| InitializeNewKey (emailCode : jsstring)
| CreateUserKey (otp : jsstring) (options : Val)
| Subscribe (handleMessage : nat)
| Unsubscribe
| Logout
| Message (source : nat) (data : Val)  (** an event of the server *)
| Resume.                              (** a turn of the event loop *)

Definition exec (c : Call) : M V3.St unit :=
  match c with
  | GetSessionId => V3.GetSessionId;; ret tt
  | SignInUserKey userKey => V3.SignInUserKey userKey;; ret tt
  | Connect force => V3.Connect force;; ret tt
  | GetInfo => V3.GetInfo;; ret tt
  | GetLoginLog => V3.GetLoginLog;; ret tt
  | ResetPassword phone => V3.ResetPassword phone;; ret tt
  | InitializeNewKey emailCode => V3.InitializeNewKey emailCode;; ret tt
  | CreateUserKey otp options => V3.CreateUserKey otp options;; ret tt
  | Subscribe handleMessage => V3.Subscribe handleMessage;; ret tt
  | Unsubscribe => V3.Unsubscribe;; ret tt
  | Logout => V3.Logout;; ret tt
  | Message source data => in_world (onmessage source data)
  | Resume => V3.resume_suspended
  end.

(** The states of a client made by [new AuthProxyClient(userKey, baseUrl)]
    in the world [w], one call or event after the other. *)
Inductive reachable (key baseUrl : jsstring) (w : World) : V3.St -> Prop :=
| reach_new : reachable key baseUrl w (V3.construct key baseUrl w)
| reach_call st c :
    reachable key baseUrl w st -> reachable key baseUrl w (snd (exec c st)).
End Run.
End V3Run.

(* ================================================================= *)
(** ** [utils/formatTimeAndTimeZone] *)

Module Time.
(** A [Date] holds a time value within 8.64e15 ms of the epoch, or [NaN]. *)
Definition valid_time (ms : Z) : bool := (Z.abs ms <=? 8640000000000000)%Z.

(** [date.getHours()] and [date.getMinutes()] of [new Date(ms)], where
    [LocalTZA] is the offset of local time at a time value; [None] is
    [NaN]. *)
Definition getHours (LocalTZA : Z -> Z) (ms : Z) : option Z :=
  if valid_time ms then Some (((ms + LocalTZA ms) / 3600000) mod 24)%Z
  else None.

Definition getMinutes (LocalTZA : Z -> Z) (ms : Z) : option Z :=
  if valid_time ms then Some (((ms + LocalTZA ms) / 60000) mod 60)%Z
  else None.

(** [`${n}`] *)
Definition number_text (n : option Z) : jsstring :=
  match n with
  | Some z => dec_of_N (Z.to_N z)
  | None => lit "NaN"
  end.

(** [s.slice(-2)] *)
Definition slice_last_2 (s : jsstring) : jsstring :=
  skipn (List.length s - 2) s.

(** [formatTimeAndTimeZone(inputDate)] for a whole number of seconds. *)
Definition formatTimeAndTimeZone (LocalTZA : Z -> Z) (inputDate : Z)
  : jsstring :=
  let date := (inputDate * 1000)%Z in
  let hours := slice_last_2 (lit "0" ++ number_text (getHours LocalTZA date)) in
  let minutes :=
    slice_last_2 (lit "0" ++ number_text (getMinutes LocalTZA date)) in
  hours ++ lit ":" ++ minutes.
End Time.

(* ================================================================= *)
(** ** A test double for the platform and a scripted server *)

Module Demo.
(** Stand-ins with the shape of the library functions. *)
#[export] Instance platform : Platform := {|
  eddsa_key := jsstring;
  eddsa_signature := list N;
  keyFromSecret := fun secret => secret;
  getPublic := fun key => key;
  sign := fun key message => key ++ message;
  toBytes := fun sig => sig;
  Buffer_from_base64 := fun str => str;
  JSON_stringify := fun _ _ => lit "{}";
  genSha256 := fun text => lit "sha256:" ++ text;
  formatAsNumber := fun text => VStr (filter is_digit text);
  version := lit "1.0.0"
|}.

Definition ends_with (suffix s : jsstring) : bool :=
  str_eqb (skipn (List.length s - List.length suffix) s) suffix.

Definition ok (headers : list (jsstring * jsstring)) (body : Val)
  : Outcome :=
  Responds {| status := 200; statusText := lit "OK";
              resp_headers := headers; resp_json := JsonValue body |}.

Definition unauthorized : Outcome :=
  Responds {| status := 401; statusText := lit "Unauthorized";
              resp_headers := []; resp_json := JsonRejects VUndef |}.

Definition server_error : Outcome :=
  Responds {| status := 500; statusText := lit "Internal Server Error";
              resp_headers := []; resp_json := JsonRejects VUndef |}.

Definition has_cookie (cookie : jsstring) (r : Request) : bool :=
  is_string
    (obj_get (lit "Cookie") (spread (obj_get (lit "headers") (req_init r))))
    cookie.

Definition login_options_body : Val :=
  VObj [(lit "result",
         VObj [(lit "challenge", VStr (lit "AQID"));
               (lit "challenge_id", VNum 7 0)])].

Definition success_body : Val := VObj [(lit "result", VStr (lit "Success"))].

(** A server that logs every key in, with the session [new], and serves
    the other calls to that session only. *)
Definition serving (log : list Request) (r : Request) : Outcome :=
  if ends_with (lit "auth/v1/login_options") (req_url r) then
    ok [] login_options_body
  else if ends_with (lit "auth/v1/login") (req_url r) then
    ok [(lit "set-cookie", lit "sid=new; Path=/")] success_body
  else if has_cookie (lit "sid=new") r then ok [] success_body
  else unauthorized.

(** The same server when its login response carries no cookie. *)
Definition forgetting_cookie (log : list Request) (r : Request) : Outcome :=
  if ends_with (lit "auth/v1/login_options") (req_url r) then
    ok [] login_options_body
  else ok [] success_body.

(** The same server when its cookie does not name [sid]. *)
Definition misnaming_cookie (log : list Request) (r : Request) : Outcome :=
  if ends_with (lit "auth/v1/login_options") (req_url r) then
    ok [] login_options_body
  else ok [(lit "set-cookie", lit "token=abc; Path=/")] success_body.

(** A server that answers 401 to every call. *)
Definition rejecting (log : list Request) (r : Request) : Outcome :=
  unauthorized.

(** A server that fails every call. *)
Definition failing (log : list Request) (r : Request) : Outcome :=
  server_error.

Definition failure_body : Val := VObj [(lit "result", VStr (lit "Failure"))].

(** A server that answers every call with the status 200 and one body. *)
Definition answering (body : Val) (log : list Request) (r : Request)
  : Outcome :=
  ok [] body.

(** A library whose signature is salted with a random text. *)
Definition salting : Library := {|
  library_key := jsstring;
  library_signature := list N;
  ec_keyFromSecret := fun secret => ret secret;
  key_getPublic := fun key => ret key;
  key_sign := fun key message =>
                salt <- getRandomText;; ret (key ++ salt ++ message);
  signature_toBytes := fun sig => ret sig
|}.

Definition world_of (srv : list Request -> Request -> Outcome) : World :=
  {| oracle := {| server := srv;
                  random_text := fun n => dec_of_N (N.of_nat n);
                  random_uuid := fun n => lit "uuid-" ++ dec_of_N (N.of_nat n);
                  es_throws := fun _ _ => None |};
     net_log := []; texts_drawn := 0; uuids_drawn := 0;
     event_sources := []; delivered := []; console := [];
     suspended := []; config_file := NoFile; config_writable := true;
     unhandled := [] |}.

Definition base : jsstring := lit "https://auth.example/".

(** A [V3] client that holds the session [old]. *)
Definition v3 (srv : list Request -> Request -> Outcome) : V3.St :=
  {| this := V3.set_sessionId (Some (lit "old"))
               (this (V3.construct (lit "key") base (world_of srv)));
     world := world_of srv |}.

(** A [V3] client whose session [old] has expired at the server. *)
Definition expired : V3.St := v3 serving.

(** A [V1] client that has not signed in. *)
Definition v1 (srv : list Request -> Request -> Outcome) : V1.St :=
  {| this := {| V1.sessionId := None; V1.sid := None;
                V1.AUTH_API_URL := Some base |};
     world := world_of srv |}.

(** A [V2] client that has signed in. *)
Definition signed_in : V2.St :=
  snd (V2Run.exec (V2Run.SignInUserKey (lit "key"))
                  (V2.construct base (world_of serving))).

Definition six_spaces : jsstring := lit "      ".

(** A world with one open event source, which feeds consumer 1. *)
Definition listening : World :=
  set_event_sources
    [{| es_url := base ++ lit "auth/v1/Subscribe"; es_consumer := 1;
        es_closed := false |}]
    (world_of serving).

Definition not_json : jsstring := lit "not json".

Definition get_info_url : jsstring := base ++ lit "auth/v1/get_info".
Definition login_options_url : jsstring :=
  base ++ lit "auth/v1/login_options".
Definition login_url : jsstring := base ++ lit "auth/v1/login".
Definition register_key_url : jsstring :=
  base ++ lit "auth/v1/register_key".

Definition register_options : Val :=
  VObj [(lit "challenge_id", VNum 7 0);
        (lit "fido2_options", VObj [(lit "challenge", VStr (lit "AQID"))])].

Definition urls {C} (st : State C) : list jsstring :=
  map req_url (net_log (world st)).
End Demo.

(* ================================================================= *)
(** ** Vocabulary of the specifications *)

(** The computation leaves the view [g] of the client's fields as it was. *)
Definition keeps {C A X} (g : C -> X) (c : M (State C) A) : Prop :=
  forall st, g (this (snd (c st))) = g (this st).

(** The computation started in [s] ends in a completion and a state
    that satisfy [Q]. *)
Definition wp {S A} (c : M S A) (Q : Completion A -> S -> Prop) (s : S)
  : Prop :=
  Q (fst (c s)) (snd (c s)).

(** A handshake succeeded: it returned a response whose [result] is
    present and is not ["Failure"]. *)
Definition handshake_succeeded (r : Completion Val) : bool :=
  match r with
  | Returned response => succeeded response
  | Threw _ => false
  end.

(** What the consumer of a push message is handed. *)
Definition handed_over (data : Val) : Val :=
  match data with
  | VStr text =>
      match JSON_parse text with
      | Some jsonValue => jsonValue
      | None => VNull
      end
  | _ => VUndef
  end.

(** [{ result: passKey, error: null }] *)
Definition minted (passKey : jsstring) : Val :=
  VObj [(lit "result", VStr passKey); (lit "error", VNull)].

(** The next user key [CreateUserKey] would mint in a world. *)
Definition next_passKey {P : Platform} (w : World) : jsstring :=
  genSha256 (random_text (oracle w) (texts_drawn w)).

(** A call keeps a property of the client's fields that held before it. *)
Definition stable {C A} (J : C -> Prop) (c : M (State C) A) : Prop :=
  forall st, J (this st) -> J (this (snd (c st))).

(** A session id that makes a well-formed [Cookie: sid=..]: not empty,
    and without [;]. *)
Definition well_formed (sessionId : option jsstring) : Prop :=
  match sessionId with
  | None => True
  | Some s => s <> [] /\ ~ In 59%N s
  end.

(** The [Cookie] header of a request. *)
Definition cookie_of (r : Request) : Val :=
  obj_get (lit "Cookie") (spread (obj_get (lit "headers") (req_init r))).

(** What the [V3] client relies on between its fields. *)
Definition V3_consistent (c : V3.Client) : Prop :=
  (V3.isConnectedES c = true -> V3.esLink c <> None) /\
  (V3.isConnected c = true -> active (V3.sessionId c) = true) /\
  well_formed (V3.sessionId c).

(** The computation takes nothing from the world and leaves it as it is:
    it ends the same way in every world, and draws nothing. *)
Definition deterministic {A} (c : M World A) : Prop :=
  (forall w1 w2, fst (c w1) = fst (c w2)) /\ (forall w, snd (c w) = w).

(** A library none of whose calls is randomised, as the signatures of
    Ed25519 are not. *)
Definition deterministic_library (L : Library) : Prop :=
  (forall secret, deterministic (ec_keyFromSecret secret)) /\
  (forall key, deterministic (key_getPublic key)) /\
  (forall key message, deterministic (key_sign key message)) /\
  (forall sig, deterministic (signature_toBytes sig)).

(** [n] below 100 in two decimal digits. *)
Definition two_digits (n : N) : jsstring :=
  [(48 + n / 10)%N; (48 + n mod 10)%N].

(* ================================================================= *)
(** ** Lemmas on strings and objects *)

Lemma str_eqb_refl (s : jsstring) : str_eqb s s = true.
Proof.
  induction s as [|c s IH]; simpl; [reflexivity|].
  now rewrite N.eqb_refl, IH.
Qed.

Lemma obj_get_set_same (k : jsstring) (v : Val) (o : Obj) :
  obj_get k (obj_set k v o) = v.
Proof.
  induction o as [|[k' v'] o IH]; simpl.
  - now rewrite str_eqb_refl.
  - destruct (str_eqb k' k) eqn:E; simpl.
    + now rewrite str_eqb_refl.
    + now rewrite E.
Qed.

(** The capture group is never empty. *)
Lemma match_sid_nonempty (s sid : jsstring) :
  match_sid s = Some sid -> sid <> [].
Proof.
  induction s as [|c s IH]; cbn [match_sid]; [discriminate|].
  destruct (after_sid_eq (c :: s)) as [rest|]; [|exact IH].
  destruct (take_until_semicolon rest) eqn:E; [exact IH|].
  intros H; inversion H; discriminate.
Qed.

(* ================================================================= *)
(** ** Lemmas on computations *)

Section Computations.
Context {C X : Type} (g : C -> X).

Lemma keeps_ret {A} (a : A) : keeps g (ret a).
Proof. intros st; reflexivity. Qed.

Lemma keeps_throw {A} (e : Exn) : keeps g (@throw _ A e).
Proof. intros st; reflexivity. Qed.

Lemma keeps_complete {A} (c : Completion A) : keeps g (complete c).
Proof. destruct c; intros st; reflexivity. Qed.

Lemma keeps_read : keeps g read.
Proof. intros st; reflexivity. Qed.

Lemma keeps_await (p : Outcome) : keeps g (await p).
Proof. destruct p; intros st; reflexivity. Qed.

Lemma keeps_response_json (r : Response) : keeps g (response_json r).
Proof. unfold response_json; destruct (resp_json r); intros st; reflexivity. Qed.

Lemma keeps_in_world {A} (c : M World A) : keeps g (in_world c).
Proof.
  intros st; unfold in_world. destruct (c (world st)); reflexivity.
Qed.

Lemma keeps_update (f : C -> C) :
  (forall c, g (f c) = g c) -> keeps g (update f).
Proof. intros H st; simpl; apply H. Qed.

Lemma keeps_bind {A B} (c : M (State C) A) (k : A -> M (State C) B) :
  keeps g c -> (forall a, keeps g (k a)) -> keeps g (bind c k).
Proof.
  intros Hc Hk st. unfold bind.
  specialize (Hc st). destruct (c st) as [[a|e] st1]; simpl in *.
  - now rewrite Hk.
  - exact Hc.
Qed.

Lemma keeps_try_catch {A} (body : M (State C) A) handler :
  keeps g body -> (forall e, keeps g (handler e)) ->
  keeps g (try_catch body handler).
Proof.
  intros Hb Hh st. unfold try_catch.
  specialize (Hb st). destruct (body st) as [[a|e] st1]; simpl in *.
  - exact Hb.
  - now rewrite Hh.
Qed.
End Computations.

(** Splits a computation along its binds, handlers and branches. *)
Ltac keeps_step :=
  first
    [ apply keeps_ret | apply keeps_throw | apply keeps_complete
    | apply keeps_read | apply keeps_await | apply keeps_response_json
    | apply keeps_in_world
    | apply keeps_update; intros []; reflexivity
    | apply keeps_bind; [|intros ?]
    | apply keeps_try_catch; [|intros ?]
    | match goal with
      | |- keeps _ (if ?b then _ else _) => destruct b
      | |- keeps _ (match ?x with _ => _ end) => destruct x
      end ].

Ltac keeps_all := repeat keeps_step.

Section Wp.
Context {S A : Type}.

Lemma wp_bind {B} (c : M S A) (k : A -> M S B) Q s :
  wp c (fun r s' => match r with
                    | Returned a => wp (k a) Q s'
                    | Threw e => Q (Threw e) s'
                    end) s ->
  wp (bind c k) Q s.
Proof.
  unfold wp, bind. destruct (c s) as [[a|e] s']; simpl; auto.
Qed.

Lemma wp_ret (a : A) (Q : Completion A -> S -> Prop) s :
  Q (Returned a) s -> wp (ret a) Q s.
Proof. auto. Qed.

Lemma wp_complete (c : Completion A) (Q : Completion A -> S -> Prop) s :
  Q c s -> wp (complete c) Q s.
Proof. destruct c; auto. Qed.
End Wp.

Lemma wp_keeps {C A X} (g : C -> X) (c : M (State C) A) Q st :
  keeps g c ->
  (forall r st', g (this st') = g (this st) -> Q r st') ->
  wp c Q st.
Proof. intros Hk HQ. apply HQ, Hk. Qed.

(* ================================================================= *)
(** ** The transport of [V2] *)

Section V2Facts.
Context {P : Platform}.

(** The transport writes no field of the client. *)
Lemma V2_ApiRequest_keeps {X} (g : V2.Client -> X) url init :
  keeps g (V2.ApiRequest url init).
Proof. unfold V2.ApiRequest. keeps_all. Qed.

Lemma V2_getDeviceGuid_keeps_session :
  keeps V2.sessionId V2.getDeviceGuid.
Proof. unfold V2.getDeviceGuid. keeps_all. Qed.

Lemma V2_getDeviceGuid_keeps_flag :
  keeps V2.isConnectedES V2.getDeviceGuid.
Proof. unfold V2.getDeviceGuid. keeps_all. Qed.

(** What the transport returns always has a [headers] property: an
    object, or [null] after a rejection. *)
Lemma V2_ApiRequest_headers url init st :
  exists fields,
    fst (V2.ApiRequest url init st) = Returned (VObj fields) /\
    obj_get (lit "headers") fields <> VUndef.
Proof.
  unfold V2.ApiRequest, try_catch, bind, read, in_world, fetch.
  cbn [fst snd this world].
  set (request := server _ _ _).
  destruct request as [response|m]; cbn.
  - destruct (response_ok response); cbn.
    + unfold response_json. destruct (resp_json response); cbn.
      * eexists; split; [reflexivity|].
        rewrite obj_get_set_same. discriminate.
      * eexists; split; [reflexivity|]. cbn. discriminate.
    + eexists; split; [reflexivity|]. cbn. discriminate.
  - eexists; split; [reflexivity|]. cbn. discriminate.
Qed.

(** Every call leaves [isConnectedES] as it was. *)
Lemma V2_exec_keeps_flag (c : V2Run.Call) :
  keeps V2.isConnectedES (V2Run.exec c).
Proof.
  destruct c; cbn [V2Run.exec];
    unfold V2.GetSessionId, V2.SignInUserKey, V2.GetInfo, V2.GetLoginLog,
      V2.ResetPassword, V2.InitializeNewKey, V2.CreateUserKey,
      V2.Subscribe, V2.Unsubscribe, V2.Logout, set_cookie_sid;
    repeat first [ apply V2_ApiRequest_keeps
                 | apply V2_getDeviceGuid_keeps_flag
                 | keeps_step ].
Qed.

Lemma V2_reachable_flag baseUrl w st :
  V2Run.reachable baseUrl w st -> V2.isConnectedES (this st) = false.
Proof.
  induction 1 as [|st c _ IH]; [reflexivity|].
  now rewrite V2_exec_keeps_flag.
Qed.

(** With the flag down, a session and a source that can be built,
    [Subscribe] opens a source and returns [true]. *)
Lemma V2_Subscribe_opens st handleMessage :
  V2.isConnectedES (this st) = false ->
  active (V2.sessionId (this st)) = true ->
  es_throws (oracle (world st)) (event_sources (world st))
            (V2.BaseUrl (this st) ++ lit "auth/v1/Subscribe") = None ->
  V2.Subscribe handleMessage st =
    (Returned true,
     {| this := V2.set_esLink
                  (Some (List.length (event_sources (world st)))) (this st);
        world := set_event_sources
                   (event_sources (world st) ++
                      [{| es_url := V2.BaseUrl (this st)
                                    ++ lit "auth/v1/Subscribe";
                          es_consumer := handleMessage;
                          es_closed := false |}])
                   (world st) |}).
Proof.
  intros Hflag Hact Hes.
  unfold V2.Subscribe, bind, read, try_catch, in_world, new_EventSource,
    update, ret.
  cbn [this world fst snd]. rewrite Hflag, Hact.
  cbn [orb negb]. cbv beta. rewrite Hes. reflexivity.
Qed.

Lemma V2_Subscribe_each_all_true consumers : forall st,
  V2.isConnectedES (this st) = false ->
  active (V2.sessionId (this st)) = true ->
  (forall sources,
      es_throws (oracle (world st)) sources
                (V2.BaseUrl (this st) ++ lit "auth/v1/Subscribe") = None) ->
  exists st',
    V2Run.Subscribe_each consumers st =
      (Returned (map (fun _ => true) consumers), st') /\
    List.length (event_sources (world st')) =
      List.length (event_sources (world st)) + List.length consumers.
Proof.
  induction consumers as [|h rest IH]; intros st Hflag Hact Hes.
  - exists st. split; [reflexivity|]. simpl. lia.
  - cbn [V2Run.Subscribe_each]. unfold bind at 1.
    rewrite (V2_Subscribe_opens _ h Hflag Hact (Hes _)).
    cbv beta iota. unfold bind.
    match goal with
    | |- context [V2Run.Subscribe_each rest ?s] =>
        destruct (IH s) as (st' & Hrun & Hlen); [assumption..|]
    end.
    rewrite Hrun. exists st'. split; [reflexivity|].
    rewrite Hlen. cbn. rewrite length_app. simpl. lia.
Qed.
End V2Facts.

(* ================================================================= *)
(** ** Sign-in and enrolment in [V2] and [V1] *)

Section Enrolment.
Context {P : Platform}.

Lemma otp_rejected_iff otp :
  V2.otp_rejected otp = true <->
  trim otp = [] /\ List.length otp <> 6.
Proof.
  unfold V2.otp_rejected. destruct (trim otp); split.
  - intros H. split; [reflexivity|].
    apply negb_true_iff, Nat.eqb_neq in H. exact H.
  - intros [_ H]. now apply negb_true_iff, Nat.eqb_neq.
  - discriminate.
  - intros [H _]. discriminate.
Qed.

(** An [otp] with something in it passes, whatever its length. *)
Lemma otp_not_rejected_on_length otp :
  trim otp <> [] -> V2.otp_rejected otp = false.
Proof. unfold V2.otp_rejected. destruct (trim otp); congruence. Qed.

Lemma minted_has_no_headers passKey fields :
  obj_get (lit "headers") fields <> VUndef ->
  VObj fields <> minted passKey.
Proof.
  intros H E. unfold minted in E. inversion E; subst.
  apply H. reflexivity.
Qed.

Lemma get_prop_twice v a b x e :
  get_prop v a = Returned x -> get_prop v b = Threw e -> False.
Proof. destruct v; simpl; discriminate. Qed.

Lemma V2_CreateUserKey_cases otp options st :
  let run := V2.CreateUserKey otp options st in
  let passKey := next_passKey (world st) in
  (fst run <> Returned (minted passKey) /\ snd run = st)
  \/
  (exists init s1 response,
      V2.ApiRequest (lit "auth/v1/register_key") init s1
        = (Returned response, snd run) /\
      if succeeded response
      then fst run = Returned (minted passKey)
      else fst run = Returned response /\ response <> minted passKey).
Proof.
  cbv zeta.
  change (wp (V2.CreateUserKey otp options)
            (fun r s' =>
               (r <> Returned (minted (next_passKey (world st))) /\ s' = st)
               \/
               (exists init s1 response,
                   V2.ApiRequest (lit "auth/v1/register_key") init s1
                     = (Returned response, s') /\
                   if succeeded response
                   then r = Returned (minted (next_passKey (world st)))
                   else r = Returned response /\
                        response <> minted (next_passKey (world st))))
            st).
  unfold V2.CreateUserKey.
  destruct (V2.otp_rejected otp).
  { apply wp_ret. left. split; [|reflexivity]. cbn. unfold minted. discriminate. }
  apply wp_bind, wp_complete.
  destruct (get_prop options "fido2_options") as [fido2_options|e] eqn:E1;
    [|left; split; [discriminate|reflexivity]].
  apply wp_bind, wp_complete.
  destruct (get_prop fido2_options "challenge") as [challenge|e];
    [|left; split; [discriminate|reflexivity]].
  apply wp_bind, wp_complete.
  destruct (base64ToUint8Array challenge) as [challengeBuf|e];
    [|left; split; [discriminate|reflexivity]].
  apply wp_bind. unfold wp at 1. cbn [in_world getRandomText fst snd world this].
  cbv beta zeta.
  apply wp_bind, wp_complete.
  destruct (get_prop options "challenge_id") as [challenge_id|e] eqn:E2;
    [|exfalso; exact (get_prop_twice _ _ _ E1 E2)].
  apply wp_bind. unfold wp at 1.
  match goal with
  | |- context [V2.ApiRequest ?url ?init ?s] =>
      destruct (V2_ApiRequest_headers url init s) as (fields & Hr & Hh);
      destruct (V2.ApiRequest url init s) as [r s2] eqn:E
  end.
  cbn [fst snd] in *. subst r.
  destruct (succeeded (VObj fields)) eqn:Hs; apply wp_ret; right;
    do 3 eexists; (split; [exact E|]); rewrite Hs.
  - reflexivity.
  - split; [reflexivity|]. now apply minted_has_no_headers.
Qed.

Lemma V1_CreateUserKey_cases otp options st :
  let run := V1.CreateUserKey otp options st in
  let passKey := next_passKey (world st) in
  (fst run <> Returned (VStr passKey) /\ snd run = st)
  \/
  (exists data s1 response,
      V1.RegisterKey data s1 = (Returned response, snd run) /\
      if succeeded response
      then fst run = Returned (VStr passKey)
      else fst run = get_prop response "error").
Proof.
  cbv zeta.
  change (wp (V1.CreateUserKey otp options)
            (fun r s' =>
               (r <> Returned (VStr (next_passKey (world st))) /\ s' = st)
               \/
               (exists data s1 response,
                   V1.RegisterKey data s1 = (Returned response, s') /\
                   if succeeded response
                   then r = Returned (VStr (next_passKey (world st)))
                   else r = get_prop response "error"))
            st).
  unfold V1.CreateUserKey.
  destruct (V1.otp_rejected otp).
  { apply wp_ret. left. split; [discriminate|reflexivity]. }
  apply wp_bind, wp_complete.
  destruct (get_prop options "fido2_options") as [fido2_options|e] eqn:E1;
    [|left; split; [discriminate|reflexivity]].
  apply wp_bind, wp_complete.
  destruct (get_prop fido2_options "challenge") as [challenge|e];
    [|left; split; [discriminate|reflexivity]].
  apply wp_bind, wp_complete.
  destruct (base64ToUint8Array challenge) as [challengeBuf|e];
    [|left; split; [discriminate|reflexivity]].
  apply wp_bind. unfold wp at 1. cbn [in_world getRandomText fst snd world this].
  cbv beta zeta.
  apply wp_bind, wp_complete.
  destruct (get_prop options "challenge_id") as [challenge_id|e] eqn:E2;
    [|exfalso; exact (get_prop_twice _ _ _ E1 E2)].
  apply wp_bind. unfold wp at 1.
  match goal with
  | |- context [V1.RegisterKey ?data ?s] =>
      destruct (V1.RegisterKey data s) as [[response|e] s2] eqn:E
  end; cbn [fst snd].
  - destruct (succeeded response) eqn:Hs.
    + apply wp_ret. right. do 3 eexists. split; [exact E|]. now rewrite Hs.
    + apply wp_complete. right. do 3 eexists. split; [exact E|]. now rewrite Hs.
  - exfalso. revert E.
    unfold V1.RegisterKey, V1.ApiRequest, try_catch, bind, read, in_world,
      fetch.
    cbn [fst snd this world].
    set (request := server _ _ _).
    destruct request as [r|m]; cbn; [|discriminate].
    destruct (response_ok r); cbn; [|discriminate].
    unfold response_json. destruct (resp_json r); cbn; discriminate.
Qed.
End Enrolment.

(* ================================================================= *)
(** ** The transport of [V3] *)

Section V3Facts.
Context {P : Platform}.

Lemma V3_ApiRequest_fetch_keeps {X} (g : V3.Client -> X) url init :
  keeps g (V3.ApiRequest_fetch url init).
Proof. unfold V3.ApiRequest_fetch. keeps_all. Qed.

Lemma V3_Connect_unawaited_keeps {X} (g : V3.Client -> X) :
  keeps g V3.Connect_unawaited.
Proof.
  unfold V3.Connect_unawaited.
  repeat first [apply V3_ApiRequest_fetch_keeps | keeps_step].
Qed.

(** The transport writes [isConnected] and nothing else. *)
Lemma V3_ApiRequest_settle_keeps_session request :
  keeps V3.sessionId (V3.ApiRequest_settle request).
Proof.
  unfold V3.ApiRequest_settle.
  repeat first [apply V3_Connect_unawaited_keeps | keeps_step].
Qed.

Lemma V3_ApiRequest_keeps_session url init :
  keeps V3.sessionId (V3.ApiRequest url init).
Proof.
  unfold V3.ApiRequest. apply keeps_bind; [|intros ?].
  - apply V3_ApiRequest_fetch_keeps.
  - apply V3_ApiRequest_settle_keeps_session.
Qed.

Lemma V3_getDeviceGuid_keeps_session :
  keeps V3.sessionId V3.getDeviceGuid.
Proof. unfold V3.getDeviceGuid. keeps_all. Qed.

(** The unawaited call never throws into its caller. *)
Lemma V3_Connect_unawaited_returns st :
  fst (V3.Connect_unawaited st) = Returned tt.
Proof.
  unfold V3.Connect_unawaited, bind, read. cbn [fst snd this].
  destruct (trim (V3.userKey (this st))); reflexivity.
Qed.

(** A 401 comes back to the caller as the error of that 401, whatever
    the reconnection does afterwards. *)
Lemma V3_ApiRequest_settle_401 response st :
  status response = 401%N ->
  fst (V3.ApiRequest_settle (Responds response) st) =
    Returned (error_response (VStr (status_message response)) (VObj [])).
Proof.
  intros H401.
  unfold V3.ApiRequest_settle, try_catch.
  unfold bind at 1. cbn [await ret]. rewrite H401. cbn [N.eqb Pos.eqb].
  unfold bind at 1. unfold bind at 1. cbn [update].
  unfold bind at 1.
  match goal with
  | |- context [V3.Connect_unawaited ?s] =>
      pose proof (V3_Connect_unawaited_returns s) as Hc;
      destruct (V3.Connect_unawaited s) as [c s1]
  end.
  cbn [fst] in Hc. subst c. cbn [await ret].
  unfold response_ok. rewrite H401. reflexivity.
Qed.

(** The same for the whole call. *)
Lemma V3_ApiRequest_401 url init st response :
  fst (V3.ApiRequest_fetch url init st) = Returned (Responds response) ->
  status response = 401%N ->
  fst (V3.ApiRequest url init st) =
    Returned (error_response (VStr (status_message response)) (VObj [])).
Proof.
  intros Hfetch H401. unfold V3.ApiRequest, bind.
  destruct (V3.ApiRequest_fetch url init st) as [[request|e] s1];
    cbn [fst] in Hfetch; inversion Hfetch; subst.
  now apply V3_ApiRequest_settle_401.
Qed.

Lemma V3_Connect_unawaited_log st :
  net_log (world (snd (V3.Connect_unawaited st))) = net_log (world st) \/
  exists r,
    req_url r = V3.BaseUrl (this st) ++ lit "auth/v1/login_options" /\
    net_log (world (snd (V3.Connect_unawaited st))) = net_log (world st) ++ [r].
Proof.
  unfold V3.Connect_unawaited, V3.ApiRequest_fetch, bind, read, in_world,
    fetch, modify.
  cbn [fst snd this world].
  destruct (trim (V3.userKey (this st))); [left; reflexivity|].
  right. eexists. split; [|reflexivity]. reflexivity.
Qed.

Lemma V3_ApiRequest_settle_state request st :
  snd (V3.ApiRequest_settle request st) =
    match request with
    | Responds response =>
        if (status response =? 401)%N
        then snd (V3.Connect_unawaited
                    {| this := V3.set_isConnected false (this st);
                       world := world st |})
        else st
    | Rejects _ => st
    end.
Proof.
  unfold V3.ApiRequest_settle, try_catch, bind, response_json, await, ret,
    throw, update.
  destruct request as [response|m]; [|reflexivity].
  cbv beta iota.
  destruct (status response =? 401)%N; cbv beta iota.
  - match goal with
    | |- context [V3.Connect_unawaited ?s] =>
        pose proof (V3_Connect_unawaited_returns s) as Hc;
        destruct (V3.Connect_unawaited s) as [c s1]
    end.
    cbn [fst] in Hc. subst c. cbv beta iota.
    destruct (response_ok response); [|reflexivity].
    destruct (resp_json response); reflexivity.
  - destruct (response_ok response); [|reflexivity].
    destruct (resp_json response); reflexivity.
Qed.

Lemma V3_ApiRequest_settle_log request st :
  net_log (world (snd (V3.ApiRequest_settle request st))) = net_log (world st)
  \/
  exists r,
    req_url r = V3.BaseUrl (this st) ++ lit "auth/v1/login_options" /\
    net_log (world (snd (V3.ApiRequest_settle request st))) =
      net_log (world st) ++ [r].
Proof.
  rewrite V3_ApiRequest_settle_state.
  destruct request as [response|m]; [|now left].
  destruct (status response =? 401)%N; [|now left].
  apply (V3_Connect_unawaited_log
           {| this := V3.set_isConnected false (this st);
              world := world st |}).
Qed.

(** One call of the transport sends its request once; all that may follow
    it is the request for login options of a reconnection. *)
Lemma V3_ApiRequest_sends_once url init st :
  exists request extra,
    req_url request = V3.BaseUrl (this st) ++ url /\
    net_log (world (snd (V3.ApiRequest url init st))) =
      net_log (world st) ++ request :: extra /\
    (extra = [] \/
     exists r, extra = [r] /\
       req_url r = V3.BaseUrl (this st) ++ lit "auth/v1/login_options").
Proof.
  unfold V3.ApiRequest, bind.
  unfold V3.ApiRequest_fetch at 1. unfold bind, read, in_world, fetch.
  cbn [fst snd this world].
  set (request := {| req_url := V3.BaseUrl (this st) ++ url; req_init := _ |}).
  match goal with
  | |- context [V3.ApiRequest_settle ?o ?s] =>
      destruct (V3_ApiRequest_settle_log o s) as [H|(r & Hr & H)]
  end; cbn [this world net_log set_net_log] in H.
  - exists request, []. rewrite H. repeat split. now left.
  - exists request, [r]. rewrite H, <- app_assoc.
    repeat split. right. now exists r.
Qed.

Lemma set_suspended_back l calls w :
  suspended w = [] ->
  set_suspended [] (set_suspended calls (set_net_log l w)) = set_net_log l w.
Proof. destruct w; cbn. intros ->. reflexivity. Qed.

(** The unawaited call and its resumption make up [Connect(true)]: started
    with nothing else in flight and resumed at once, they leave the state
    that the awaited call leaves, a rejection going to nobody. *)
Lemma V3_unawaited_then_resumed (st : V3.St) :
  suspended (world st) = [] ->
  (V3.Connect_unawaited;; V3.resume_suspended) st =
    match V3.Connect true st with
    | (Returned _, st') => (Returned tt, st')
    | (Threw e, st') =>
        (Returned tt,
         {| this := this st';
            world := set_unhandled (unhandled (world st') ++ [e]) (world st') |})
    end.
Proof.
  intros Hnone.
  unfold V3.Connect, V3.Connect_unawaited, V3.SignInUserKey,
    V3.ApiRequest_fetch, bind, read, ret.
  cbn [fst snd this negb andb].
  destruct (trim (V3.userKey (this st))) as [|c key] eqn:Hkey.
  - unfold V3.resume_suspended. rewrite Hnone. reflexivity.
  - unfold in_world, fetch, modify. cbn [fst snd this world].
    unfold V3.resume_suspended, try_catch, bind, in_world, modify, ret.
    cbn [world this suspended set_suspended set_net_log fst snd awaited key_in_use].
    rewrite Hnone. cbn [app awaited key_in_use].
    rewrite (set_suspended_back _ _ _ Hnone).
    match goal with
    | |- context [V3.SignInUserKey_resume ?k ?r ?s] =>
        destruct (V3.SignInUserKey_resume k r s) as [[response|e] s']
    end; reflexivity.
Qed.
End V3Facts.

(* ================================================================= *)
(** ** The session across a sign-in *)

Section Session.
Context {P : Platform}.

Lemma set_cookie_sid_keeps {C X} (g : C -> X) loginResponse :
  keeps g (set_cookie_sid (S := State C) loginResponse).
Proof. unfold set_cookie_sid. keeps_all. Qed.

Lemma V2_SignInUserKey_session userKey st :
  wp (V2.SignInUserKey userKey)
     (fun r st' =>
        handshake_succeeded r = false ->
        V2.sessionId (this st') = V2.sessionId (this st))
     st.
Proof.
  unfold V2.SignInUserKey.
  destruct (trim userKey); [intros _; reflexivity|].
  apply wp_bind.
  apply (wp_keeps (g := V2.sessionId)); [apply V2_ApiRequest_keeps|].
  intros [loginOptionResponse|e] s1 H1; [|intros _; exact H1].
  apply wp_bind, wp_complete.
  destruct (get_prop loginOptionResponse "result") as [authOptions|e];
    [|intros _; exact H1].
  destruct (negb (truthy authOptions)).
  { apply wp_bind, wp_complete.
    destruct (get_prop loginOptionResponse "error");
      [apply wp_ret|]; intros _; exact H1. }
  apply wp_bind, wp_complete.
  destruct (get_prop authOptions "challenge") as [challenge|e];
    [|intros _; exact H1].
  apply wp_bind, wp_complete.
  destruct (base64ToUint8Array challenge) as [challengeBuf|e];
    [|intros _; exact H1].
  cbv beta zeta. apply wp_bind, wp_complete.
  destruct (get_prop authOptions "challenge_id") as [challenge_id|e];
    [|intros _; exact H1].
  apply wp_bind.
  apply (wp_keeps (g := V2.sessionId)); [apply V2_getDeviceGuid_keeps_session|].
  intros [device_guid|e] s2 H2; [|intros _; congruence].
  apply wp_bind.
  apply (wp_keeps (g := V2.sessionId)); [apply V2_ApiRequest_keeps|].
  intros [loginResponse|e] s3 H3; [|intros _; congruence].
  apply wp_bind.
  destruct (succeeded loginResponse) eqn:Hs.
  - apply wp_bind.
    apply (wp_keeps (g := V2.sessionId)); [apply set_cookie_sid_keeps|].
    intros [sid|e] s4 H4; [|intros _; congruence].
    unfold wp. cbn. intros Hf. rewrite Hs in Hf. discriminate.
  - apply wp_ret, wp_ret. intros _. congruence.
Qed.

Lemma V3_SignInUserKey_session key st :
  wp (V3.SignInUserKey key)
     (fun r st' =>
        handshake_succeeded r = false ->
        V3.sessionId (this st') = V3.sessionId (this st))
     st.
Proof.
  unfold V3.SignInUserKey.
  destruct (trim key); [intros _; reflexivity|].
  apply wp_bind.
  apply (wp_keeps (g := V3.sessionId)); [apply V3_ApiRequest_fetch_keeps|].
  intros [request|e] s0 H0; [|intros _; exact H0].
  unfold V3.SignInUserKey_resume.
  apply wp_bind.
  apply (wp_keeps (g := V3.sessionId));
    [apply V3_ApiRequest_settle_keeps_session|].
  intros [loginOptionResponse|e] s1 H1; [|intros _; congruence].
  apply wp_bind, wp_complete.
  destruct (get_prop loginOptionResponse "result") as [authOptions|e];
    [|intros _; congruence].
  destruct (negb (truthy authOptions)).
  { apply wp_bind, wp_complete.
    destruct (get_prop loginOptionResponse "error");
      [apply wp_ret|]; intros _; congruence. }
  apply wp_bind, wp_complete.
  destruct (get_prop authOptions "challenge") as [challenge|e];
    [|intros _; congruence].
  apply wp_bind, wp_complete.
  destruct (base64ToUint8Array challenge) as [challengeBuf|e];
    [|intros _; congruence].
  cbv beta zeta. apply wp_bind, wp_complete.
  destruct (get_prop authOptions "challenge_id") as [challenge_id|e];
    [|intros _; congruence].
  apply wp_bind.
  apply (wp_keeps (g := V3.sessionId)); [apply V3_getDeviceGuid_keeps_session|].
  intros [device_guid|e] s2 H2; [|intros _; congruence].
  apply wp_bind.
  apply (wp_keeps (g := V3.sessionId)); [apply V3_ApiRequest_keeps_session|].
  intros [loginResponse|e] s3 H3; [|intros _; congruence].
  apply wp_bind.
  destruct (succeeded loginResponse) eqn:Hs.
  - apply wp_bind.
    apply (wp_keeps (g := V3.sessionId)); [apply set_cookie_sid_keeps|].
    intros [sid|e] s4 H4; [|intros _; congruence].
    unfold wp. cbn. intros Hf. rewrite Hs in Hf. discriminate.
  - apply wp_ret, wp_ret. intros _. congruence.
Qed.
End Session.

(* ================================================================= *)
(** ** The event channel *)

Section Channel.
Context {P : Platform}.

Lemma V2_Subscribe_without_session st handleMessage :
  active (V2.sessionId (this st)) = false ->
  V2.Subscribe handleMessage st = (Returned false, st).
Proof.
  intros H. unfold V2.Subscribe, bind, read. cbn [this].
  rewrite H, orb_true_r. reflexivity.
Qed.

Lemma V3_Subscribe_without_session st handleMessage :
  active (V3.sessionId (this st)) = false ->
  V3.Subscribe handleMessage st = (Returned false, st).
Proof.
  intros H. unfold V3.Subscribe, bind, read. cbn [this].
  rewrite H, orb_true_r. reflexivity.
Qed.

(** [V3] refuses to open while its flag is up. *)
Lemma V3_Subscribe_while_open st handleMessage :
  V3.isConnectedES (this st) = true ->
  V3.Subscribe handleMessage st = (Returned false, st).
Proof.
  intros H. unfold V3.Subscribe, bind, read. cbn [this].
  rewrite H. reflexivity.
Qed.

(** In [V3] an open that succeeds raises the flag. *)
Lemma V3_Subscribe_raises_flag st st' handleMessage :
  V3.Subscribe handleMessage st = (Returned true, st') ->
  V3.isConnectedES (this st') = true.
Proof.
  unfold V3.Subscribe, bind, read, try_catch, in_world, new_EventSource,
    update, ret.
  cbn [this world fst snd].
  destruct (V3.isConnectedES (this st) || negb (active (V3.sessionId (this st))));
    [discriminate|].
  destruct (es_throws _ _ _); cbn.
  - discriminate.
  - intros H. inversion H. reflexivity.
Qed.

(** So in [V3] a second open in a row is refused. *)
Lemma V3_second_Subscribe_refused st st' first second :
  V3.Subscribe first st = (Returned true, st') ->
  V3.Subscribe second st' = (Returned false, st').
Proof.
  intros H. apply V3_Subscribe_while_open.
  exact (V3_Subscribe_raises_flag _ _ H).
Qed.

Lemma getMessageFromEvent_returns message w :
  fst (getMessageFromEvent message w) = Returned (handed_over message).
Proof.
  unfold getMessageFromEvent, handed_over, bind, console_log, modify.
  destruct message; try reflexivity.
  destruct (JSON_parse s); reflexivity.
Qed.
End Channel.

(* ================================================================= *)
(** ** The key derivation in the world *)

Lemma deterministic_ret {A} (a : A) : deterministic (ret a).
Proof. split; reflexivity. Qed.

Lemma deterministic_bind {A B} (c : M World A) (k : A -> M World B) :
  deterministic c -> (forall a, deterministic (k a)) ->
  deterministic (bind c k).
Proof.
  intros (Hc & Hw) Hk. split.
  - intros w1 w2. unfold bind.
    specialize (Hc w1 w2). pose proof (Hw w1) as H1. pose proof (Hw w2) as H2.
    destruct (c w1) as [[a1|e1] s1], (c w2) as [[a2|e2] s2];
      cbn [fst snd] in *; subst; try congruence.
    inversion Hc; subst. apply (Hk a2).
  - intros w. unfold bind. pose proof (Hw w) as H1.
    destruct (c w) as [[a|e] s1]; cbn [snd] in *; subst; [|reflexivity].
    apply (Hk a).
Qed.

(** Over the library of a platform the derivation in the world is the
    function [generateKeys] that the clients call. *)
Lemma generateKeys_of_platform (P : Platform) (passKey : jsstring)
    (challengeBuf : list N) (w : World) :
  InWorld.generateKeys (L := library_of P) passKey challengeBuf w =
    (Returned (generateKeys passKey challengeBuf), w).
Proof. reflexivity. Qed.

(** The derivation is as random as its library: over a library that salts
    its signatures, two runs in a row on the same secret and challenge
    give two signatures. *)
Lemma generateKeys_follows_library :
  fst ((first <- InWorld.generateKeys (L := Demo.salting)
                   (lit "key") [1; 2; 3]%N;;
        second <- InWorld.generateKeys (L := Demo.salting)
                    (lit "key") [1; 2; 3]%N;;
        ret (str_eqb (signature first) (signature second)))
         (Demo.world_of Demo.serving)) = Returned false.
Proof. vm_compute. reflexivity. Qed.

(* ================================================================= *)
(** ** The claims *)

(** C1 (the code at a failing input).  A [V3] client whose session has
    expired calls [GetInfo]; the server answers 401, would log the user key
    in again, and would serve the call to the new session.  The call
    returns the error of the 401 and has sent its request once; the
    reconnection it started goes on after it and does refresh the session,
    the request is never sent again by that call, and only a new call gets
    the result.  Against a server that answers 401 to everything, each
    reconnection starts the next one: after three turns of the event loop
    four requests for login options have left. *)
Theorem ApiRequest_401_not_retried (P : Platform) :
  fst (V3.GetInfo Demo.expired) =
    Returned (error_response (VStr (lit "Status: 401. Unauthorized"))
                             (VObj [])) /\
  Demo.urls (snd (V3.GetInfo Demo.expired)) =
    [Demo.get_info_url; Demo.login_options_url] /\
  V3.sessionId (this (snd ((V3.GetInfo;; V3.resume_all 1) Demo.expired))) =
    Some (lit "new") /\
  Demo.urls (snd ((V3.GetInfo;; V3.resume_all 1) Demo.expired)) =
    [Demo.get_info_url; Demo.login_options_url; Demo.login_url] /\
  fst ((V3.GetInfo;; V3.resume_all 1;; V3.GetInfo) Demo.expired) =
    Returned (VObj [(lit "result", VStr (lit "Success"));
                    (lit "headers", VObj [])]) /\
  Demo.urls (snd ((V3.GetInfo;; V3.resume_all 3) (Demo.v3 Demo.rejecting))) =
    [Demo.get_info_url; Demo.login_options_url; Demo.login_options_url;
     Demo.login_options_url; Demo.login_options_url].
Proof. repeat split; vm_compute; reflexivity. Qed.

(** C2 (the code at a failing input).  When the login response has a
    success body and its [set-cookie] header is missing, or does not
    contain [sid=..], [SignInUserKey] throws a [TypeError] in each of the
    three revisions: it returns no structured error. *)
Theorem SignInUserKey_throws_on_bad_cookie (P : Platform) :
  fst (V2.SignInUserKey (lit "key")
         (V2.construct Demo.base (Demo.world_of Demo.forgetting_cookie))) =
    Threw (TypeError "Cannot read properties of undefined: match") /\
  fst (V2.SignInUserKey (lit "key")
         (V2.construct Demo.base (Demo.world_of Demo.misnaming_cookie))) =
    Threw (TypeError "Cannot read properties of null: 1") /\
  fst (V3.SignInUserKey (lit "key")
         (V3.construct (lit "key") Demo.base
                       (Demo.world_of Demo.forgetting_cookie))) =
    Threw (TypeError "Cannot read properties of undefined: match") /\
  fst (V1.SignInUserKey (lit "key") (Demo.v1 Demo.forgetting_cookie)) =
    Threw (TypeError "Cannot read properties of undefined: match").
Proof. repeat split; vm_compute; reflexivity. Qed.

(** C3 (the code at a failing input).  An [otp] of six spaces is blank,
    yet [CreateUserKey] does not reject it: it sends the registration
    request, in [V2] and in [V1]. *)
Theorem CreateUserKey_sends_blank_otp_of_length_6 (P : Platform) :
  trim Demo.six_spaces = [] /\
  Demo.urls (snd (V2.CreateUserKey Demo.six_spaces Demo.register_options
                    (V2.construct Demo.base (Demo.world_of Demo.serving)))) =
    [Demo.register_key_url] /\
  Demo.urls (snd (V1.CreateUserKey Demo.six_spaces Demo.register_options
                    (Demo.v1 Demo.serving))) =
    [Demo.register_key_url].
Proof. repeat split; vm_compute; reflexivity. Qed.

(** C4.  Two runs of [generateKeys] on the same secret and the same
    challenge give the same public key and the same signature, in whatever
    worlds they run, and draw nothing from the world: the function adds
    no randomness and no salt to what the signature library does.  The
    library is any whose calls are not randomised themselves; the secret
    and the challenge need not even be non-empty. *)
Theorem generateKeys_deterministic (L : Library)
    (passKey : jsstring) (challengeBuf : list N) :
  deterministic_library L ->
  (forall w1 w2,
      fst (InWorld.generateKeys passKey challengeBuf w1) =
      fst (InWorld.generateKeys passKey challengeBuf w2)) /\
  (forall w, snd (InWorld.generateKeys passKey challengeBuf w) = w).
Proof.
  intros (Hkey & Hpublic & Hsign & Hbytes).
  change (deterministic (InWorld.generateKeys passKey challengeBuf)).
  unfold InWorld.generateKeys.
  apply deterministic_bind; [apply Hkey|intros key].
  apply deterministic_bind; [apply Hpublic|intros public_key].
  apply deterministic_bind; [apply Hsign|intros signed].
  apply deterministic_bind; [apply Hbytes|intros signature].
  apply deterministic_ret.
Qed.

Lemma generateKeys_deterministic_witness :
  fst (InWorld.generateKeys (L := library_of Demo.platform)
         (lit "key") [1; 2; 3]%N (Demo.world_of Demo.serving)) =
  fst (InWorld.generateKeys (L := library_of Demo.platform)
         (lit "key") [1; 2; 3]%N (Demo.world_of Demo.failing)).
Proof.
  refine (proj1 (@generateKeys_deterministic (library_of Demo.platform)
                   (lit "key") [1; 2; 3]%N _) _ _).
  repeat split; intros; reflexivity.
Defined.

(** C5.  When [SignInUserKey] does not end in a successful login (no
    challenge came back, the login response has no result or the result
    ["Failure"], the status is not 2xx, the transport failed, or the call
    threw), the [sessionId] of the client is what it was before the call,
    in [V2] and in [V3]: only a successful handshake writes it. *)
Theorem SignInUserKey_failure_keeps_session (P : Platform)
    (userKey : jsstring) :
  (forall st : V2.St,
      handshake_succeeded (fst (V2.SignInUserKey userKey st)) = false ->
      V2.sessionId (this (snd (V2.SignInUserKey userKey st))) =
        V2.sessionId (this st)) /\
  (forall st : V3.St,
      handshake_succeeded (fst (V3.SignInUserKey userKey st)) = false ->
      V3.sessionId (this (snd (V3.SignInUserKey userKey st))) =
        V3.sessionId (this st)).
Proof.
  split; intros st.
  - exact (V2_SignInUserKey_session userKey st).
  - exact (V3_SignInUserKey_session userKey st).
Qed.

Lemma SignInUserKey_failure_keeps_session_witness :
  V2.sessionId
    (this (snd (V2.SignInUserKey (P := Demo.platform) (lit "key")
                  (V2.construct Demo.base (Demo.world_of Demo.failing))))) =
    None /\
  V3.sessionId
    (this (snd (V3.SignInUserKey (P := Demo.platform) (lit "key")
                  (Demo.v3 Demo.failing)))) =
    Some (lit "old").
Proof.
  destruct (SignInUserKey_failure_keeps_session Demo.platform (lit "key"))
    as [H2 H3].
  split.
  - apply (H2 (V2.construct Demo.base (Demo.world_of Demo.failing))).
    vm_compute. reflexivity.
  - apply (H3 (Demo.v3 Demo.failing)). vm_compute. reflexivity.
Defined.

(** C6.  When the trimmed user key is empty, [SignInUserKey] returns its
    validation error ([null] in [V1], whose errors are [null]) and leaves
    the client and the world as they were: no request is sent, neither for
    the challenge nor for the login. *)
Theorem SignInUserKey_blank_key_no_network (P : Platform)
    (userKey : jsstring) :
  trim userKey = [] ->
  (forall st : V2.St,
      V2.SignInUserKey userKey st =
        (Returned (validationErrorResponse "User key must be not empty"),
         st)) /\
  (forall st : V3.St,
      V3.SignInUserKey userKey st =
        (Returned (validationErrorResponse "User key must be not empty"),
         st)) /\
  (forall st : V1.St, V1.SignInUserKey userKey st = (Returned VNull, st)).
Proof.
  intros H.
  unfold V2.SignInUserKey, V3.SignInUserKey, V1.SignInUserKey.
  rewrite H. repeat split.
Qed.

Lemma SignInUserKey_blank_key_no_network_witness :
  trim (lit "   ") = [] /\
  net_log (world (snd (V2.SignInUserKey (P := Demo.platform) (lit "   ")
                         (V2.construct Demo.base
                                       (Demo.world_of Demo.serving))))) = [].
Proof.
  assert (H : trim (lit "   ") = []) by reflexivity.
  split; [exact H|].
  destruct (SignInUserKey_blank_key_no_network Demo.platform _ H) as [H2 _].
  rewrite H2. reflexivity.
Defined.

(** C7 (the code at a failing input).  The server answers the
    registration with [{ result: "Failure" }].  [CreateUserKey] of [V1]
    has sent its request and returns [undefined], the [error] that this
    response does not have: neither a key nor an error.  [V2] at the same
    input returns the response, which bears the failure.  When the server
    answers [{ result: "Success" }] both return the key they minted. *)
Theorem V1_CreateUserKey_failure_returns_undefined (P : Platform) :
  fst (V1.CreateUserKey (lit "123456") Demo.register_options
         (Demo.v1 (Demo.answering Demo.failure_body))) = Returned VUndef /\
  Demo.urls (snd (V1.CreateUserKey (lit "123456") Demo.register_options
                    (Demo.v1 (Demo.answering Demo.failure_body)))) =
    [Demo.register_key_url] /\
  fst (V2.CreateUserKey (lit "123456") Demo.register_options
         (V2.construct Demo.base
            (Demo.world_of (Demo.answering Demo.failure_body)))) =
    Returned (VObj [(lit "result", VStr (lit "Failure"));
                    (lit "headers", VObj [])]) /\
  fst (V1.CreateUserKey (lit "123456") Demo.register_options
         (Demo.v1 (Demo.answering Demo.success_body))) =
    Returned (VStr (next_passKey
                      (Demo.world_of (Demo.answering Demo.success_body)))) /\
  fst (V2.CreateUserKey (lit "123456") Demo.register_options
         (V2.construct Demo.base
            (Demo.world_of (Demo.answering Demo.success_body)))) =
    Returned (minted (next_passKey
                        (Demo.world_of (Demo.answering Demo.success_body)))).
Proof. repeat split; vm_compute; reflexivity. Qed.

(** C8 (the code at a failing input).  A [V2] client that has signed in
    calls [Subscribe] twice in a row: both calls return [true] and two
    event sources are open.  The second open is not refused. *)
Theorem V2_second_Subscribe_not_refused :
  fst ((first <- V2.Subscribe 1;;
        second <- V2.Subscribe 2;;
        ret (first, second)) Demo.signed_in) = Returned (true, true) /\
  map es_closed
      (event_sources
         (world (snd ((V2.Subscribe 1;;
                       V2.Subscribe 2)
                        Demo.signed_in)))) = [false; false].
Proof. split; vm_compute; reflexivity. Qed.

(** C9 (the claim fails here).  The payload [not json] does not decode;
    the consumer is handed [null], not the payload. *)
Lemma undecodable_message_not_handed_over_raw :
  JSON_parse Demo.not_json = None /\
  delivered (snd (onmessage 0 (VStr Demo.not_json) Demo.listening)) =
    [(1, VNull)] /\
  delivered (snd (onmessage 0 (VStr Demo.not_json) Demo.listening)) <>
    [(1, VStr Demo.not_json)].
Proof. repeat split; vm_compute; [reflexivity..|discriminate]. Qed.

(** C9, amended.  For every message that an open event source receives,
    the handler decodes the payload as JSON and hands the decoded value to
    the consumer; when the payload does not decode the consumer is handed
    [null] and the failure is written to the console; when the payload is
    not a string the consumer is handed [undefined].  The handler never
    throws. *)
Theorem onmessage_hands_over_decoded_or_null
    (i : nat) (es : EventSource) (data : Val) (w : World) :
  nth_error (event_sources w) i = Some es ->
  es_closed es = false ->
  exists w',
    onmessage i data w = (Returned tt, w') /\
    delivered w' = delivered w ++ [(es_consumer es, handed_over data)] /\
    (forall text jsonValue,
        data = VStr text -> JSON_parse text = Some jsonValue ->
        handed_over data = jsonValue) /\
    (forall text,
        data = VStr text -> JSON_parse text = None ->
        handed_over data = VNull /\
        console w' =
          console w ++
            [ConsoleLog [VStr (lit "Message received:"); data];
             ConsoleError "Error parsing message:"
                          (SyntaxError "JSON.parse")]) /\
    ((forall text, data <> VStr text) -> handed_over data = VUndef).
Proof.
  intros Hnth Hopen.
  unfold onmessage. rewrite Hnth, Hopen.
  unfold getMessageFromEvent, handed_over, bind, console_log, console_error,
    modify, ret.
  destruct data as [| |b|m e|text|items|fields];
    try (eexists; split; [reflexivity|]; split; [reflexivity|];
         split; [|split];
         [ intros t v Ht; discriminate
         | intros t Ht; discriminate
         | reflexivity ]).
  destruct (JSON_parse text) as [jsonValue|] eqn:E;
    (eexists; split; [reflexivity|]; split; [reflexivity|]; split; [|split]).
  - intros t v Ht Hv. inversion Ht; subst. congruence.
  - intros t Ht Hv. inversion Ht; subst. congruence.
  - intros H. exfalso. exact (H text eq_refl).
  - intros t v Ht Hv. inversion Ht; subst. congruence.
  - intros t Ht Hv. split; [reflexivity|]. cbn [console set_console].
    now rewrite <- app_assoc.
  - intros H. exfalso. exact (H text eq_refl).
Qed.

Lemma onmessage_hands_over_decoded_or_null_witness :
  delivered (snd (onmessage 0 (VStr (lit "[1, true]")) Demo.listening)) =
    [(1, VArr [VNum 1 0; VBool true])].
Proof.
  destruct (@onmessage_hands_over_decoded_or_null
              0 {| es_url := Demo.base ++ lit "auth/v1/Subscribe";
                   es_consumer := 1; es_closed := false |}
              (VStr (lit "[1, true]")) Demo.listening eq_refl eq_refl)
    as (w' & Hrun & Hdel & _).
  rewrite Hrun. cbn [snd]. rewrite Hdel. vm_compute. reflexivity.
Defined.

(** C10.  In [V2] no operation sets [isConnectedES]: in every reachable
    state of that client the flag is [false] and [Unsubscribe] returns
    [false], changing nothing; and with an active session, where an event
    source can be constructed, any number of [Subscribe] calls in a row all
    return [true], each opening one more source. *)
Theorem V2_isConnectedES_never_set (P : Platform)
    (baseUrl : jsstring) (w : World) (st : V2.St) :
  V2Run.reachable baseUrl w st ->
  V2.isConnectedES (this st) = false /\
  V2.Unsubscribe st = (Returned false, st) /\
  (active (V2.sessionId (this st)) = true ->
   (forall sources,
       es_throws (oracle (world st)) sources
                 (V2.BaseUrl (this st) ++ lit "auth/v1/Subscribe") = None) ->
   forall consumers,
   exists st',
     V2Run.Subscribe_each consumers st =
       (Returned (map (fun _ => true) consumers), st') /\
     List.length (event_sources (world st')) =
       List.length (event_sources (world st)) + List.length consumers).
Proof.
  intros Hreach.
  pose proof (V2_reachable_flag Hreach) as Hflag.
  split; [exact Hflag|]. split.
  - unfold V2.Unsubscribe, bind, read. cbn [this]. rewrite Hflag. reflexivity.
  - intros Hact Hes consumers.
    now apply V2_Subscribe_each_all_true.
Qed.

Lemma V2_isConnectedES_never_set_witness :
  V2.Unsubscribe Demo.signed_in = (Returned false, Demo.signed_in) /\
  fst (V2Run.Subscribe_each [1; 2; 3] Demo.signed_in) =
    Returned [true; true; true].
Proof.
  destruct (@V2_isConnectedES_never_set Demo.platform Demo.base
              (Demo.world_of Demo.serving) Demo.signed_in
              (V2Run.reach_call (V2Run.SignInUserKey (lit "key"))
                 (V2Run.reach_new Demo.base (Demo.world_of Demo.serving))))
    as (_ & Hu & Hs).
  split; [exact Hu|].
  destruct (Hs ltac:(vm_compute; reflexivity) (fun _ => eq_refl) [1; 2; 3])
    as (st' & Hrun & _).
  rewrite Hrun. reflexivity.
Defined.

(* ================================================================= *)
(** ** Further properties: the session cookie *)

Lemma str_eqb_eq (a b : jsstring) : str_eqb a b = true <-> a = b.
Proof.
  split; [|intros ->; apply str_eqb_refl].
  revert b. induction a as [|x a IH]; destruct b as [|y b]; simpl;
    try discriminate; [reflexivity|].
  intros H. apply andb_true_iff in H. destruct H as [Hx Ha].
  apply N.eqb_eq in Hx. now rewrite Hx, (IH b Ha).
Qed.

Lemma obj_get_set_other (k k' : jsstring) (v : Val) (o : Obj) :
  str_eqb k' k = false -> obj_get k (obj_set k' v o) = obj_get k o.
Proof.
  intros Hk. induction o as [|[k0 v0] o IH]; simpl.
  - now rewrite Hk.
  - destruct (str_eqb k0 k') eqn:E; simpl.
    + apply str_eqb_eq in E. subst k0. now rewrite Hk.
    + now rewrite IH.
Qed.

Lemma take_until_semicolon_app (v rest : jsstring) :
  ~ In 59%N v -> take_until_semicolon (v ++ 59%N :: rest) = v.
Proof.
  induction v as [|c v IH]; simpl; intros H.
  - reflexivity.
  - destruct (N.eqb_spec c 59) as [->|_]; [exfalso; auto|].
    rewrite IH; auto.
Qed.

Lemma take_until_semicolon_all (v : jsstring) :
  ~ In 59%N v -> take_until_semicolon v = v.
Proof.
  induction v as [|c v IH]; simpl; intros H; [reflexivity|].
  destruct (N.eqb_spec c 59) as [->|_]; [exfalso; auto|].
  rewrite IH; auto.
Qed.

(** The group is a run without [;] and the rest starts with [;] or is
    empty. *)
Lemma take_until_semicolon_split (s : jsstring) :
  ~ In 59%N (take_until_semicolon s) /\
  exists post,
    s = take_until_semicolon s ++ post /\
    (post = [] \/ exists post', post = 59%N :: post').
Proof.
  induction s as [|c s (Hno & post & Hs & Hpost)]; simpl.
  - split; [auto|]. exists []. auto.
  - destruct (N.eqb_spec c 59) as [->|Hc].
    + split; [auto|]. exists (59%N :: s). split; [reflexivity|]. eauto.
    + split.
      * simpl. intros [H|H]; [congruence|auto].
      * exists post. split; [|exact Hpost]. simpl. now rewrite <- Hs.
Qed.

Ltac pin_code_unit x :=
  destruct x as [|x]; [discriminate|];
  do 8 (try (destruct x as [x|x|]; try discriminate)).

Lemma after_sid_eq_spec (s rest : jsstring) :
  after_sid_eq s = Some rest <-> s = lit "sid=" ++ rest.
Proof.
  split; [|intros ->; reflexivity].
  unfold after_sid_eq.
  destruct s as [|a [|b [|c [|d s]]]]; try discriminate;
    try (pin_code_unit a; fail);
    try (pin_code_unit a; pin_code_unit b; fail);
    try (pin_code_unit a; pin_code_unit b; pin_code_unit c; fail).
  pin_code_unit a. pin_code_unit b. pin_code_unit c. pin_code_unit d.
  intros H. inversion H. reflexivity.
Qed.

(** The match is found at some [sid=], and the group is what stands
    after it up to the next [;]. *)
Lemma match_sid_found (s g : jsstring) :
  match_sid s = Some g ->
  g <> [] /\
  exists pre rest,
    s = pre ++ lit "sid=" ++ rest /\ take_until_semicolon rest = g.
Proof.
  induction s as [|c s IH]; cbn [match_sid]; [discriminate|].
  assert (Hrec : match_sid s = Some g ->
                 g <> [] /\
                 exists pre rest,
                   c :: s = pre ++ lit "sid=" ++ rest /\
                   take_until_semicolon rest = g).
  { intros H. destruct (IH H) as (Hg & pre & rest & Hs & Ht).
    split; [exact Hg|].
    exists (c :: pre), rest. split; [|exact Ht]. simpl. now rewrite Hs. }
  destruct (after_sid_eq (c :: s)) as [rest|] eqn:E; [|exact Hrec].
  destruct (take_until_semicolon rest) as [|x g'] eqn:Et; [exact Hrec|].
  intros H. inversion H; subst g. clear H.
  apply after_sid_eq_spec in E.
  split; [discriminate|].
  exists [], rest. split; [exact E|exact Et].
Qed.

Lemma match_sid_capture (s g : jsstring) :
  match_sid s = Some g -> g <> [] /\ ~ In 59%N g.
Proof.
  intros H. destruct (match_sid_found _ H) as (Hg & pre & rest & _ & Ht).
  split; [exact Hg|]. subst g. apply take_until_semicolon_split.
Qed.

(** X1.  What [match(/sid=([^;]+)/)] captures stands in the header after
    [sid=], is not empty, has no [;], and ends at a [;] or at the end. *)
Theorem match_sid_sound (s g : jsstring) :
  match_sid s = Some g ->
  g <> [] /\ ~ In 59%N g /\
  exists pre post,
    s = pre ++ lit "sid=" ++ g ++ post /\
    (post = [] \/ exists post', post = 59%N :: post').
Proof.
  intros H. destruct (match_sid_found _ H) as (Hg & pre & rest & Hs & Ht).
  destruct (take_until_semicolon_split rest) as (Hno & post & Hr & Hpost).
  rewrite Ht in Hno, Hr.
  split; [exact Hg|]. split; [exact Hno|].
  exists pre, post. split; [|exact Hpost].
  rewrite Hs. f_equal. f_equal. exact Hr.
Qed.

Lemma match_sid_sound_witness :
  lit "abc123" <> [] /\ ~ In 59%N (lit "abc123").
Proof.
  destruct (@match_sid_sound (lit "Path=/; sid=abc123; HttpOnly")
              (lit "abc123") eq_refl) as (H1 & H2 & _).
  split; assumption.
Defined.

(** X2.  No capture, which makes [SignInUserKey] throw, means that the header
    has no [sid=] followed by a character other than [;]: every [sid=] in
    it is at its end or before a [;]. *)
Theorem match_sid_none_iff (s : jsstring) :
  match_sid s = None <->
  (forall pre c post, s = pre ++ lit "sid=" ++ c :: post -> c = 59%N).
Proof.
  induction s as [|x s IH]; cbn [match_sid].
  - split; [|reflexivity]. intros _ pre c post H.
    destruct pre; discriminate.
  - assert (Htail :
      (forall pre c post, x :: s = pre ++ lit "sid=" ++ c :: post -> c = 59%N)
      -> forall pre c post, s = pre ++ lit "sid=" ++ c :: post -> c = 59%N).
    { intros H pre c post Hs. apply (H (x :: pre) c post).
      simpl. now rewrite Hs. }
    destruct (after_sid_eq (x :: s)) as [rest|] eqn:E.
    + apply after_sid_eq_spec in E.
      destruct rest as [|c rest].
      * cbn [take_until_semicolon]. rewrite IH. split; [|exact Htail].
        intros H [|y pre] c post Hs.
        -- rewrite E in Hs. cbn in Hs. inversion Hs.
        -- inversion Hs; subst. eapply H. reflexivity.
      * cbn [take_until_semicolon].
        destruct (N.eqb_spec c 59) as [->|Hc].
        -- rewrite IH. split; [|exact Htail].
           intros H [|y pre] c post Hs.
           ++ rewrite E in Hs. cbn in Hs. now inversion Hs.
           ++ inversion Hs; subst. eapply H. reflexivity.
        -- split; [discriminate|]. intros H. exfalso. apply Hc.
           apply (H [] c rest). exact E.
    + rewrite IH. split; [|exact Htail].
      intros H [|y pre] c post Hs.
      * cbn [app] in Hs.
        assert (Hsome : after_sid_eq (x :: s) = Some (c :: post))
          by (apply after_sid_eq_spec; exact Hs).
        congruence.
      * inversion Hs; subst. eapply H. reflexivity.
Qed.

(** X3.  A header that starts with [sid=v], where [v] is not empty and has no
    [;], gives [v], whether a [;] and attributes follow or not. *)
Theorem match_sid_extracts (v rest : jsstring) :
  v <> [] -> ~ In 59%N v ->
  match_sid (lit "sid=" ++ v ++ 59%N :: rest) = Some v /\
  match_sid (lit "sid=" ++ v) = Some v.
Proof.
  intros Hv Hno.
  assert (Hgo : forall tail,
             take_until_semicolon (v ++ tail) = v ->
             match_sid (lit "sid=" ++ v ++ tail) = Some v).
  { intros tail Ht.
    change (lit "sid=" ++ v ++ tail)
      with (115 :: 105 :: 100 :: 61 :: v ++ tail)%N.
    cbn [match_sid after_sid_eq]. rewrite Ht.
    destruct v; [congruence|reflexivity]. }
  split.
  - apply Hgo. now apply take_until_semicolon_app.
  - rewrite <- (app_nil_r v) at 1. apply Hgo.
    rewrite app_nil_r. now apply take_until_semicolon_all.
Qed.

Lemma match_sid_extracts_witness :
  match_sid (lit "sid=abc123; Path=/") = Some (lit "abc123").
Proof.
  assert (Hv : lit "abc123" <> []) by (vm_compute; discriminate).
  assert (Hno : ~ In 59%N (lit "abc123")).
  { vm_compute. intros H. repeat (destruct H as [H|H]; [discriminate|]).
    exact H. }
  exact (proj1 (match_sid_extracts (lit " Path=/") Hv Hno)).
Defined.

(* ================================================================= *)
(** ** Further properties: the transport *)

Section Transport.
Context {P : Platform}.

(** The transport of [V2], run: its request, its state, and what it makes
    of each outcome. *)
Lemma V2_ApiRequest_run url init st :
  let req :=
    {| req_url := V2.BaseUrl (this st) ++ url;
       req_init :=
         obj_set (lit "headers")
           (VObj (obj_merge
                    (obj_merge json_headers
                               (spread (obj_get (lit "headers") init)))
                    (cookie_header (V2.sessionId (this st)))))
           (obj_merge [(lit "credentials", VStr (lit "include"))] init) |} in
  V2.ApiRequest url init st =
    (Returned
       match server (oracle (world st)) (net_log (world st)) req with
       | Rejects m => error_response m VNull
       | Responds r =>
           if response_ok r then
             match resp_json r with
             | JsonValue body =>
                 VObj (obj_set (lit "headers") (VObj (collect_headers r))
                               (spread body))
             | JsonRejects m => error_response m VNull
             end
           else error_response (VStr (status_message r)) (VObj [])
       end,
     {| this := this st;
        world := set_net_log (net_log (world st) ++ [req]) (world st) |}).
Proof.
  cbv zeta.
  unfold V2.ApiRequest, try_catch, bind, read, in_world, fetch.
  cbn [fst snd this world].
  match goal with |- context [server ?o ?l ?r] => destruct (server o l r) as [r0|m] end;
    [|reflexivity].
  cbn [await ret]. destruct (response_ok r0); [|reflexivity].
  unfold response_json. destruct (resp_json r0); reflexivity.
Qed.

(** The same for the module-level transport of [V1]. *)
Lemma V1_ApiRequest_run url init st :
  let req :=
    {| req_url := V1.api_url (this st) url;
       req_init :=
         obj_set (lit "headers")
           (VObj (obj_merge (spread (obj_get (lit "headers") init))
                            (cookie_header (V1.sid (this st)))))
           init |} in
  V1.ApiRequest url init st =
    (Returned
       match server (oracle (world st)) (net_log (world st)) req with
       | Rejects m => error_response m VNull
       | Responds r =>
           if response_ok r then
             match resp_json r with
             | JsonValue body =>
                 VObj (obj_set (lit "headers") (VObj (collect_headers r))
                               (spread body))
             | JsonRejects m => error_response m VNull
             end
           else error_response (VStr (status_message r)) (VObj [])
       end,
     {| this := this st;
        world := set_net_log (net_log (world st) ++ [req]) (world st) |}).
Proof.
  cbv zeta.
  unfold V1.ApiRequest, try_catch, bind, read, in_world, fetch.
  cbn [fst snd this world].
  match goal with |- context [server ?o ?l ?r] => destruct (server o l r) as [r0|m] end;
    [|reflexivity].
  cbn [await ret]. destruct (response_ok r0); [|reflexivity].
  unfold response_json. destruct (resp_json r0); reflexivity.
Qed.

Lemma cookie_of_merge (a : Obj) (sessionId : option jsstring) rest :
  obj_get (lit "Cookie")
          (spread (obj_get (lit "headers")
                     (obj_set (lit "headers")
                        (VObj (obj_merge a (cookie_header sessionId))) rest)))
  = match sessionId with
    | Some (c :: s) => VStr (lit "sid=" ++ c :: s)
    | _ => obj_get (lit "Cookie") a
    end.
Proof.
  rewrite obj_get_set_same. cbn [spread].
  destruct sessionId as [[|c s]|]; cbn [cookie_header obj_merge fold_left];
    try reflexivity.
  cbn [fst snd]. apply obj_get_set_same.
Qed.

(** X4.  Every call of the transport returns, never throws, writes no field of
    the client and sends exactly one request, to the base URL followed by
    the path.  With a session the request carries [Cookie: sid=<session>],
    whatever [Cookie] the caller passed; without one it carries the
    caller's, if any. *)
Theorem V2_ApiRequest_one_request url init st :
  exists v req,
    V2.ApiRequest url init st =
      (Returned v,
       {| this := this st;
          world := set_net_log (net_log (world st) ++ [req]) (world st) |}) /\
    req_url req = V2.BaseUrl (this st) ++ url /\
    cookie_of req =
      match V2.sessionId (this st) with
      | Some (c :: s) => VStr (lit "sid=" ++ c :: s)
      | _ => obj_get (lit "Cookie")
                     (obj_merge json_headers
                                (spread (obj_get (lit "headers") init)))
      end.
Proof.
  do 2 eexists. split; [apply V2_ApiRequest_run|].
  split; [reflexivity|]. unfold cookie_of. cbn [req_init].
  apply cookie_of_merge.
Qed.

(** X5.  Every call of the module-level transport of [V1] returns, never
    throws, and sends exactly one request, to the API URL followed by the
    path.  With a [sid] set in the module the request carries
    [Cookie: sid=<sid>], whatever [Cookie] the caller passed; without one
    it carries the caller's, if any. *)
Theorem V1_ApiRequest_one_request url init st :
  exists v req,
    V1.ApiRequest url init st =
      (Returned v,
       {| this := this st;
          world := set_net_log (net_log (world st) ++ [req]) (world st) |}) /\
    req_url req = V1.api_url (this st) url /\
    cookie_of req =
      match V1.sid (this st) with
      | Some (c :: s) => VStr (lit "sid=" ++ c :: s)
      | _ => obj_get (lit "Cookie") (spread (obj_get (lit "headers") init))
      end.
Proof.
  do 2 eexists. split; [apply V1_ApiRequest_run|].
  split; [reflexivity|]. unfold cookie_of. cbn [req_init].
  apply cookie_of_merge.
Qed.
End Transport.

(* ================================================================= *)
(** ** Further properties: what a response carries *)

Section Responses.
Context {P : Platform}.

Lemma obj_get_assign_same (k v : jsstring) (o : Obj) :
  k <> lit "__proto__" -> obj_get k (assign_string k v o) = VStr v.
Proof.
  intros Hk. unfold assign_string.
  destruct (str_eqb k (lit "__proto__")) eqn:E.
  - apply str_eqb_eq in E. contradiction.
  - apply obj_get_set_same.
Qed.

Lemma obj_get_assign_other (k k2 v2 : jsstring) (o : Obj) :
  k2 <> k -> obj_get k (assign_string k2 v2 o) = obj_get k o.
Proof.
  intros Hk. unfold assign_string.
  destruct (str_eqb k2 (lit "__proto__")); [reflexivity|].
  apply obj_get_set_other.
  destruct (str_eqb k2 k) eqn:E; [|reflexivity].
  apply str_eqb_eq in E. contradiction.
Qed.

Lemma In_obj_set (k k2 : jsstring) (x v : Val) (o : Obj) :
  In (k, x) (obj_set k2 v o) -> In (k, x) o \/ k = k2.
Proof.
  induction o as [|[k3 v3] o IH]; cbn [obj_set].
  - intros [H|[]]. inversion H. now right.
  - destruct (str_eqb k3 k2).
    + intros [H|H]; [inversion H; now right|left; now right].
    + intros [H|H]; [left; now left|].
      destruct (IH H) as [Hin|Heq]; [left; now right|now right].
Qed.

Lemma In_assign_string (k k2 v2 : jsstring) (x : Val) (o : Obj) :
  In (k, x) (assign_string k2 v2 o) ->
  In (k, x) o \/ (k = k2 /\ k <> lit "__proto__").
Proof.
  unfold assign_string.
  destruct (str_eqb k2 (lit "__proto__")) eqn:E; [now left|].
  intros H. destruct (In_obj_set _ _ _ _ _ H) as [Hin|Heq]; [now left|].
  right. split; [exact Heq|]. subst k2. intros Hp.
  rewrite Hp, str_eqb_refl in E. discriminate.
Qed.

(** An own property of the collected object was there before, or was
    visited under its name, which is not [__proto__]. *)
Lemma fold_assign_own (k : jsstring) (x : Val)
    (l : list (jsstring * jsstring)) (acc : Obj) :
  In (k, x)
     (fold_left (fun acc kv => assign_string (fst kv) (snd kv) acc) l acc) ->
  In (k, x) acc \/ (k <> lit "__proto__" /\ exists v, In (k, v) l).
Proof.
  revert acc. induction l as [|[k2 v2] l IH]; intros acc; cbn [fold_left].
  - now left.
  - intros H. destruct (IH _ H) as [Hin|(Hk & v & Hv)].
    + cbn [fst snd] in Hin.
      destruct (In_assign_string _ _ _ _ _ Hin) as [Hacc|(Heq & Hk)];
        [now left|].
      right. split; [exact Hk|]. exists v2. left. now subst k2.
    + right. split; [exact Hk|]. exists v. now right.
Qed.

Lemma fold_assign_last (k : jsstring) (v : jsstring)
    (before after : list (jsstring * jsstring)) (acc : Obj) :
  k <> lit "__proto__" ->
  (forall v', ~ In (k, v') after) ->
  obj_get k
    (fold_left (fun acc kv => assign_string (fst kv) (snd kv) acc)
               (before ++ (k, v) :: after) acc) = VStr v.
Proof.
  intros Hk.
  induction after as [|[k2 v2] after IH] using rev_ind; intros Hafter.
  - rewrite fold_left_app. cbn [fold_left fst snd].
    now apply obj_get_assign_same.
  - rewrite app_comm_cons, app_assoc, fold_left_app. cbn [fold_left fst snd].
    rewrite obj_get_assign_other.
    + apply IH. intros v' Hin. apply (Hafter v'), in_or_app. now left.
    + intros ->. apply (Hafter v2), in_or_app. right. now left.
Qed.

Lemma fold_assign_absent (k : jsstring)
    (l : list (jsstring * jsstring)) (acc : Obj) :
  (forall v, ~ In (k, v) l) ->
  obj_get k
    (fold_left (fun acc kv => assign_string (fst kv) (snd kv) acc) l acc)
  = obj_get k acc.
Proof.
  revert acc. induction l as [|[k2 v2] l IH]; intros acc Hl; [reflexivity|].
  cbn [fold_left fst snd]. rewrite IH.
  - apply obj_get_assign_other. intros ->. apply (Hl v2). now left.
  - intros v Hin. apply (Hl v). now right.
Qed.

(** X6.  Of the response headers with one name, other than [__proto__], the
    last one visited is the one the client sees: so of several
    [set-cookie] headers only the last is searched for the session.  A
    header named [__proto__] stores nothing, and a name that was not
    visited is no own property of the collected object: it reads as
    [undefined] unless it is a member of [Object.prototype]. *)
Theorem collect_headers_last_wins (r : Response) (k : jsstring) :
  (k <> lit "__proto__" ->
   forall v before after,
     resp_headers r = before ++ (k, v) :: after ->
     (forall v', ~ In (k, v') after) ->
     obj_get k (collect_headers r) = VStr v) /\
  ((k = lit "__proto__" \/ forall v, ~ In (k, v) (resp_headers r)) ->
   (forall x, ~ In (k, x) (collect_headers r)) /\
   (~ In k Object_prototype_names ->
    obj_get k (collect_headers r) = VUndef)).
Proof.
  unfold collect_headers. split.
  - intros Hk v before after Hr Hafter. rewrite Hr.
    now apply fold_assign_last.
  - intros Hnone. split.
    + intros x Hin.
      destruct (fold_assign_own _ _ _ _ Hin) as [[]|(Hk & v & Hv)].
      destruct Hnone as [Hp|Habsent]; [contradiction|].
      exact (Habsent v Hv).
    + intros Hown. destruct Hnone as [->|Habsent].
      * exfalso. apply Hown. vm_compute. tauto.
      * now rewrite fold_assign_absent.
Qed.

Lemma collect_headers_last_wins_witness :
  obj_get (lit "set-cookie")
    (collect_headers
       {| status := 200; statusText := lit "OK";
          resp_headers := [(lit "set-cookie", lit "sid=abc");
                           (lit "set-cookie", lit "lang=en")];
          resp_json := JsonValue VNull |}) = VStr (lit "lang=en").
Proof.
  refine (proj1 (collect_headers_last_wins
                   {| status := 200; statusText := lit "OK";
                      resp_headers := [(lit "set-cookie", lit "sid=abc");
                                       (lit "set-cookie", lit "lang=en")];
                      resp_json := JsonValue VNull |}
                   (lit "set-cookie"))
            _ (lit "lang=en") [(lit "set-cookie", lit "sid=abc")] []
            eq_refl _).
  - vm_compute. discriminate.
  - intros v' H. exact H.
Defined.

(** X7.  A response of the transport counts as a success only if the server
    answered with a 2xx status and a JSON body whose [result] is present
    and is not ["Failure"]; its [headers] are then the headers of the
    response, whatever [headers] the body names.  After a rejected fetch,
    a status that is not 2xx or a body that is no JSON it never does. *)
Theorem V2_ApiRequest_success url init st :
  exists v req,
    fst (V2.ApiRequest url init st) = Returned v /\
    net_log (world (snd (V2.ApiRequest url init st))) =
      net_log (world st) ++ [req] /\
    (succeeded v = true <->
     exists r body,
       server (oracle (world st)) (net_log (world st)) req = Responds r /\
       response_ok r = true /\
       resp_json r = JsonValue body /\
       truthy (obj_get (lit "result") (spread body)) = true /\
       is_string (obj_get (lit "result") (spread body)) (lit "Failure")
         = false /\
       get_prop v "headers" = Returned (VObj (collect_headers r))).
Proof.
  pose proof (V2_ApiRequest_run url init st) as Hrun. cbv zeta in Hrun.
  do 2 eexists. rewrite Hrun. cbn [fst snd world net_log set_net_log].
  split; [reflexivity|]. split; [reflexivity|].
  match goal with |- context [server ?o ?l ?q] => destruct (server o l q) as [r|m] end.
  - destruct (response_ok r) eqn:Hok.
    + destruct (resp_json r) as [body|m] eqn:Hj.
      * unfold succeeded. cbn [get_prop].
        rewrite obj_get_set_other by reflexivity.
        rewrite obj_get_set_same.
        split.
        -- intros H. apply andb_true_iff in H. destruct H as [Ht Hf].
           apply negb_true_iff in Hf.
           exists r, body. repeat split; assumption.
        -- intros (r' & body' & Hr & _ & Hb & Ht & Hf & _).
           inversion Hr; subst r'. rewrite Hj in Hb. inversion Hb; subst body'.
           now rewrite Ht, Hf.
      * split; [discriminate|].
        intros (r' & body' & Hr & _ & Hb & _).
        inversion Hr; subst r'. congruence.
    + split; [discriminate|].
      intros (r' & body' & Hr & Hok' & _).
      inversion Hr; subst r'. congruence.
  - split; [discriminate|].
    intros (r' & body' & Hr & _). discriminate.
Qed.
End Responses.

(* ================================================================= *)
(** ** Further properties: a successful sign-in *)

Section SignIn.
Context {P : Platform}.

Lemma set_cookie_sid_returns {S} (loginResponse : Val) (s s' : S) sid :
  set_cookie_sid loginResponse s = (Returned sid, s') ->
  s' = s /\
  exists headers cookie,
    get_prop loginResponse "headers" = Returned headers /\
    get_prop headers "set-cookie" = Returned (VStr cookie) /\
    match_sid cookie = Some sid.
Proof.
  unfold set_cookie_sid, bind, complete, throw, ret.
  destruct (get_prop loginResponse "headers") as [headers|e] eqn:Hh; cbn;
    [|discriminate].
  destruct (get_prop headers "set-cookie") as [cookie|e] eqn:Hc; cbn;
    [|discriminate].
  destruct cookie as [| |b|m e|c|items|fields]; cbn; try discriminate.
  destruct (match_sid c) as [g|] eqn:E; cbn; [|discriminate].
  intros H. inversion H; subst. split; [reflexivity|].
  exists headers, c. auto.
Qed.

(** How a sign-in of [V2] ends: without success and with the session it
    had, or with a success response and the session its cookie names. *)
Lemma V2_SignInUserKey_outcome userKey st :
  wp (V2.SignInUserKey userKey)
     (fun r st' =>
        (handshake_succeeded r = false /\
         V2.sessionId (this st') = V2.sessionId (this st))
        \/
        (exists response headers cookie sid,
            r = Returned response /\ succeeded response = true /\
            get_prop response "headers" = Returned headers /\
            get_prop headers "set-cookie" = Returned (VStr cookie) /\
            match_sid cookie = Some sid /\
            V2.sessionId (this st') = Some sid))
     st.
Proof.
  unfold V2.SignInUserKey.
  destruct (trim userKey); [left; split; reflexivity|].
  apply wp_bind.
  apply (wp_keeps (g := V2.sessionId)); [apply V2_ApiRequest_keeps|].
  intros [loginOptionResponse|e] s1 H1; [|left; split; [reflexivity|exact H1]].
  apply wp_bind, wp_complete.
  destruct (get_prop loginOptionResponse "result") as [authOptions|e] eqn:Hres;
    [|left; split; [reflexivity|exact H1]].
  destruct (negb (truthy authOptions)) eqn:Htr.
  { apply wp_bind, wp_complete.
    destruct (get_prop loginOptionResponse "error");
      [apply wp_ret|]; left; (split; [reflexivity|exact H1]). }
  apply wp_bind, wp_complete.
  destruct (get_prop authOptions "challenge") as [challenge|e];
    [|left; split; [reflexivity|exact H1]].
  apply wp_bind, wp_complete.
  destruct (base64ToUint8Array challenge) as [challengeBuf|e];
    [|left; split; [reflexivity|exact H1]].
  cbv beta zeta. apply wp_bind, wp_complete.
  destruct (get_prop authOptions "challenge_id") as [challenge_id|e];
    [|left; split; [reflexivity|exact H1]].
  apply wp_bind.
  apply (wp_keeps (g := V2.sessionId)); [apply V2_getDeviceGuid_keeps_session|].
  intros [device_guid|e] s2 H2; [|left; split; [reflexivity|congruence]].
  apply wp_bind.
  apply (wp_keeps (g := V2.sessionId)); [apply V2_ApiRequest_keeps|].
  intros [loginResponse|e] s3 H3; [|left; split; [reflexivity|congruence]].
  apply wp_bind.
  destruct (succeeded loginResponse) eqn:Hs.
  - apply wp_bind. unfold wp at 1.
    destruct (set_cookie_sid loginResponse s3) as [[sid|e] s4] eqn:Ec;
      cbn [fst snd].
    + apply set_cookie_sid_returns in Ec.
      destruct Ec as (-> & headers & cookie & Hh & Hc & Hm).
      unfold wp. cbn. right. exists loginResponse, headers, cookie, sid.
      repeat split; assumption.
    + pose proof (set_cookie_sid_keeps V2.sessionId loginResponse s3) as Hk.
      rewrite Ec in Hk. cbn [snd] in Hk.
      left. split; [reflexivity|congruence].
  - apply wp_ret, wp_ret. left. cbn. rewrite Hs. split; [reflexivity|congruence].
Qed.

(** X8.  A sign-in that returns a success leaves the client with the session
    that the [set-cookie] header of the login response names; that session
    is not empty and has no [;], and the next call of the transport sends
    it as [Cookie: sid=<session>]. *)
Theorem V2_SignInUserKey_establishes_session userKey st :
  handshake_succeeded (fst (V2.SignInUserKey userKey st)) = true ->
  exists response headers cookie sid,
    fst (V2.SignInUserKey userKey st) = Returned response /\
    get_prop response "headers" = Returned headers /\
    get_prop headers "set-cookie" = Returned (VStr cookie) /\
    match_sid cookie = Some sid /\
    V2.sessionId (this (snd (V2.SignInUserKey userKey st))) = Some sid /\
    sid <> [] /\ ~ In 59%N sid /\
    forall url init,
    exists v req,
      V2.ApiRequest url init (snd (V2.SignInUserKey userKey st)) =
        (Returned v,
         {| this := this (snd (V2.SignInUserKey userKey st));
            world :=
              set_net_log
                (net_log (world (snd (V2.SignInUserKey userKey st))) ++ [req])
                (world (snd (V2.SignInUserKey userKey st))) |}) /\
      cookie_of req = VStr (lit "sid=" ++ sid).
Proof.
  intros Hok.
  destruct (V2_SignInUserKey_outcome userKey st)
    as [[Hno _]|(response & headers & cookie & sid & Hr & Hs & Hh & Hc & Hm & Hsid)];
    [congruence|].
  destruct (match_sid_capture _ Hm) as (Hne & Hsemi).
  exists response, headers, cookie, sid.
  repeat (split; [assumption|]).
  intros url init.
  do 2 eexists. split; [apply V2_ApiRequest_run|].
  unfold cookie_of. cbn [req_init]. rewrite cookie_of_merge, Hsid.
  destruct sid; [congruence|reflexivity].
Qed.
End SignIn.

Lemma V2_SignInUserKey_establishes_session_witness :
  exists sid,
    V2.sessionId
      (this (snd (V2.SignInUserKey (P := Demo.platform) (lit "key")
                    (V2.construct Demo.base (Demo.world_of Demo.serving))))) =
      Some sid /\ sid <> [].
Proof.
  destruct (@V2_SignInUserKey_establishes_session Demo.platform (lit "key")
              (V2.construct Demo.base (Demo.world_of Demo.serving)))
    as (response & headers & cookie & sid & _ & _ & _ & _ & Hsid & Hne & _).
  - vm_compute. reflexivity.
  - exists sid. split; assumption.
Defined.

(* ================================================================= *)
(** ** Further properties: what the fields of a client keep *)

Section Stable.
Context {C : Type} (J : C -> Prop).

Lemma stable_keeps {A} (c : M (State C) A) :
  keeps (fun x => x) c -> stable J c.
Proof. intros H st HJ. now rewrite H. Qed.

Lemma stable_ret {A} (a : A) : stable J (ret a).
Proof. intros st H; exact H. Qed.

Lemma stable_throw {A} (e : Exn) : stable J (@throw _ A e).
Proof. intros st H; exact H. Qed.

Lemma stable_complete {A} (c : Completion A) : stable J (complete c).
Proof. destruct c; intros st H; exact H. Qed.

Lemma stable_in_world {A} (c : M World A) : stable J (in_world c).
Proof. apply stable_keeps, keeps_in_world. Qed.

Lemma stable_update (f : C -> C) :
  (forall c, J c -> J (f c)) -> stable J (update f).
Proof. intros H st HJ. simpl. now apply H. Qed.

Lemma stable_bind {A B} (c : M (State C) A) (k : A -> M (State C) B) :
  stable J c -> (forall a, stable J (k a)) -> stable J (bind c k).
Proof.
  intros Hc Hk st HJ. unfold bind.
  specialize (Hc st HJ). destruct (c st) as [[a|e] st1]; simpl in *.
  - now apply Hk.
  - exact Hc.
Qed.

Lemma stable_try_catch {A} (body : M (State C) A) handler :
  stable J body -> (forall e, stable J (handler e)) ->
  stable J (try_catch body handler).
Proof.
  intros Hb Hh st HJ. unfold try_catch.
  specialize (Hb st HJ). destruct (body st) as [[a|e] st1]; simpl in *.
  - exact Hb.
  - now apply Hh.
Qed.

(** Two writes in a row, which keep the property together. *)
Lemma stable_update_twice {A} (f g : C -> C) (k : M (State C) A) :
  (forall c, J c -> J (g (f c))) -> stable J k ->
  stable J (update f;; update g;; k).
Proof.
  intros H Hk st HJ. unfold bind, update. cbn [fst snd].
  apply Hk. cbn [this]. now apply H.
Qed.

(** What follows the capture of the session knows what was captured. *)
Lemma stable_set_cookie_sid {A} loginResponse
    (k : jsstring -> M (State C) A) :
  (forall sid, sid <> [] -> ~ In 59%N sid -> stable J (k sid)) ->
  stable J (sid <- set_cookie_sid loginResponse;; k sid).
Proof.
  intros Hk st HJ. unfold bind.
  destruct (set_cookie_sid loginResponse st) as [[sid|e] st1] eqn:E.
  - apply set_cookie_sid_returns in E.
    destruct E as (-> & headers & cookie & _ & _ & Hm).
    destruct (match_sid_capture _ Hm) as (Hne & Hsemi).
    now apply Hk.
  - pose proof (set_cookie_sid_keeps (fun x : C => x) loginResponse st) as Hkeep.
    rewrite E in Hkeep. cbn [snd] in *. now rewrite Hkeep.
Qed.
End Stable.

Ltac stable_step :=
  first
    [ apply stable_ret | apply stable_throw | apply stable_complete
    | apply stable_in_world
    | apply stable_keeps; solve [keeps_all]
    | apply stable_bind; [|intros ?]
    | apply stable_try_catch; [|intros ?]
    | match goal with
      | |- stable _ (if ?b then _ else _) => destruct b
      | |- stable _ (match ?x with _ => _ end) => destruct x
      end ].

(* ================================================================= *)
(** ** Further properties: the fields of a [V3] client *)

Section V3Fields.
Context {P : Platform}.

Lemma V3_settle_stable request :
  stable V3_consistent (V3.ApiRequest_settle request).
Proof.
  unfold V3.ApiRequest_settle.
  repeat first
    [ apply stable_keeps; solve [apply V3_Connect_unawaited_keeps
                                | apply keeps_await
                                | apply keeps_response_json]
    | apply stable_update; intros [] (H1 & H2 & H3); cbn in *;
      repeat split; auto; discriminate
    | stable_step ].
Qed.

Lemma V3_ApiRequest_stable url init :
  stable V3_consistent (V3.ApiRequest url init).
Proof.
  unfold V3.ApiRequest. apply stable_bind; [|intros request].
  - apply stable_keeps, V3_ApiRequest_fetch_keeps.
  - apply V3_settle_stable.
Qed.

Lemma V3_getDeviceGuid_stable : stable V3_consistent V3.getDeviceGuid.
Proof.
  unfold V3.getDeviceGuid.
  repeat first
    [ apply stable_update; intros [] H; exact H
    | stable_step ].
Qed.

Lemma V3_resume_stable key request :
  stable V3_consistent (V3.SignInUserKey_resume key request).
Proof.
  unfold V3.SignInUserKey_resume.
  repeat first
    [ apply V3_settle_stable | apply V3_ApiRequest_stable
    | apply V3_getDeviceGuid_stable
    | apply stable_set_cookie_sid; intros sid Hne Hsemi
    | apply stable_update_twice;
      [intros [] (H1 & H2 & H3); cbn in *; repeat split; auto;
       destruct sid; [congruence|reflexivity]|]
    | stable_step ].
Qed.

Lemma V3_SignInUserKey_stable key :
  stable V3_consistent (V3.SignInUserKey key).
Proof.
  unfold V3.SignInUserKey.
  destruct (trim key); [apply stable_ret|].
  apply stable_bind; [|intros request].
  - apply stable_keeps, V3_ApiRequest_fetch_keeps.
  - apply V3_resume_stable.
Qed.

Lemma V3_Subscribe_stable handleMessage :
  stable V3_consistent (V3.Subscribe handleMessage).
Proof.
  unfold V3.Subscribe.
  apply stable_bind; [apply stable_keeps, keeps_read|intros c].
  destruct (V3.isConnectedES c || negb (active (V3.sessionId c)));
    [apply stable_ret|].
  apply stable_try_catch; [|intros e; repeat stable_step].
  apply stable_bind; [apply stable_in_world|intros es].
  apply stable_update_twice; [|apply stable_ret].
  intros [] (H1 & H2 & H3); cbn in *. repeat split; auto. discriminate.
Qed.

Lemma V3_Unsubscribe_stable : stable V3_consistent V3.Unsubscribe.
Proof.
  unfold V3.Unsubscribe.
  repeat first
    [ apply stable_update; intros [] (H1 & H2 & H3); cbn in *;
      repeat split; auto; discriminate
    | stable_step ].
Qed.

Lemma V3_resume_suspended_stable :
  stable V3_consistent V3.resume_suspended.
Proof.
  intros st HJ. unfold V3.resume_suspended.
  destruct (suspended (world st)) as [|call rest]; [exact HJ|].
  revert st HJ.
  change (stable V3_consistent
            (try_catch
               (in_world (modify (set_suspended rest));;
                V3.SignInUserKey_resume (key_in_use call) (awaited call);;
                ret tt)
               (fun e => in_world
                  (modify (fun w => set_unhandled (unhandled w ++ [e]) w))))).
  repeat first [apply V3_resume_stable | stable_step].
Qed.

(** Every call and every event keeps the fields of [V3] consistent. *)
Lemma V3_exec_stable (c : V3Run.Call) : stable V3_consistent (V3Run.exec c).
Proof.
  destruct c; cbn [V3Run.exec];
    unfold V3.GetSessionId, V3.Connect, V3.GetInfo, V3.GetLoginLog,
      V3.ResetPassword, V3.InitializeNewKey, V3.CreateUserKey, V3.Logout;
    repeat first
      [ apply V3_resume_suspended_stable
      | apply V3_SignInUserKey_stable | apply V3_ApiRequest_stable
      | apply V3_getDeviceGuid_stable | apply V3_resume_stable
      | apply V3_Subscribe_stable | apply V3_Unsubscribe_stable
      | stable_step ].
Qed.
End V3Fields.

Section V3Reachable.
Context {P : Platform}.

Lemma V3_construct_consistent key baseUrl w :
  V3_consistent (this (V3.construct key baseUrl w)).
Proof. repeat split; cbn; auto; discriminate. Qed.

(** X9.  In every state a [V3] client can reach: while the subscription flag is
    up the event source is set, so [Unsubscribe] never throws, and it
    returns [true] exactly when the flag was up; while the client counts
    as connected it has a session; and its session id is [null] or a
    string that is not empty and has no [;]. *)
Theorem V3_reachable_consistent key baseUrl w st :
  V3Run.reachable key baseUrl w st ->
  V3_consistent (this st) /\
  exists st',
    V3.Unsubscribe st = (Returned (V3.isConnectedES (this st)), st').
Proof.
  intros Hreach.
  assert (HJ : V3_consistent (this st)).
  { induction Hreach as [|st c _ IH].
    - apply V3_construct_consistent.
    - now apply V3_exec_stable. }
  split; [exact HJ|].
  destruct HJ as (Hes & _ & _).
  unfold V3.Unsubscribe, bind, read. cbn [this].
  destruct (V3.isConnectedES (this st)) eqn:Hflag; cbn [negb].
  - destruct (V3.esLink (this st)) as [i|] eqn:Hlink;
      [|exfalso; now apply Hes].
    eexists. reflexivity.
  - eexists. reflexivity.
Qed.

End V3Reachable.

Lemma V3_reachable_consistent_witness :
  well_formed
    (V3.sessionId
       (this (snd (V3Run.exec (P := Demo.platform)
                     (V3Run.SignInUserKey (lit "key"))
                     (V3.construct (lit "key") Demo.base
                                   (Demo.world_of Demo.serving)))))).
Proof.
  exact (proj2 (proj2 (proj1
    (@V3_reachable_consistent Demo.platform (lit "key") Demo.base
       (Demo.world_of Demo.serving) _
       (V3Run.reach_call (V3Run.SignInUserKey (lit "key"))
          (V3Run.reach_new (lit "key") Demo.base
             (Demo.world_of Demo.serving))))))).
Defined.

(* ================================================================= *)
(** ** Further properties: the event channel of [V3] *)

Lemma close_nth_last (l : list EventSource) (e : EventSource) :
  close_nth (List.length l) (l ++ [e]) =
    l ++ [{| es_url := es_url e; es_consumer := es_consumer e;
             es_closed := true |}].
Proof. induction l as [|x l IH]; simpl; [reflexivity|]. now rewrite IH. Qed.

Lemma nth_error_last {A} (l : list A) (a : A) :
  nth_error (l ++ [a]) (List.length l) = Some a.
Proof. induction l; simpl; auto. Qed.

Lemma V3_Subscribe_true_state st st1 handleMessage :
  V3.Subscribe handleMessage st = (Returned true, st1) ->
  st1 =
    {| this := V3.set_isConnectedES true
                 (V3.set_esLink (Some (List.length (event_sources (world st))))
                                (this st));
       world := set_event_sources
                  (event_sources (world st) ++
                     [{| es_url := V3.BaseUrl (this st)
                                   ++ lit "auth/v1/Subscribe";
                         es_consumer := handleMessage;
                         es_closed := false |}])
                  (world st) |}.
Proof.
  unfold V3.Subscribe, bind, read, try_catch, in_world, new_EventSource,
    update, ret.
  cbn [this world fst snd].
  destruct (V3.isConnectedES (this st) || negb (active (V3.sessionId (this st))));
    [discriminate|].
  destruct (es_throws _ _ _); cbn.
  - discriminate.
  - intros H. inversion H. reflexivity.
Qed.

Lemma V3_Subscribe_opens st handleMessage :
  V3.isConnectedES (this st) = false ->
  active (V3.sessionId (this st)) = true ->
  es_throws (oracle (world st)) (event_sources (world st))
            (V3.BaseUrl (this st) ++ lit "auth/v1/Subscribe") = None ->
  fst (V3.Subscribe handleMessage st) = Returned true.
Proof.
  intros Hflag Hact Hes.
  unfold V3.Subscribe, bind, read, try_catch, in_world, new_EventSource,
    update, ret.
  cbn [this world fst snd]. rewrite Hflag, Hact.
  cbn [orb negb]. cbv beta. rewrite Hes. reflexivity.
Qed.

(** X10.  The life of a subscription in [V3].  After a [Subscribe] that
    returned [true], a message on the new source is handed to the
    consumer; [Unsubscribe] then returns [true] and closes that source,
    after which its messages reach nobody, the flag is down, and a new
    [Subscribe] opens the next source if one can be constructed. *)
Theorem V3_subscription_life st st1 handleMessage :
  V3.Subscribe handleMessage st = (Returned true, st1) ->
  let i := List.length (event_sources (world st)) in
  (forall data,
      delivered (snd (onmessage i data (world st1))) =
        delivered (world st1) ++ [(handleMessage, handed_over data)]) /\
  exists st2,
    V3.Unsubscribe st1 = (Returned true, st2) /\
    V3.isConnectedES (this st2) = false /\
    (forall data, onmessage i data (world st2) = (Returned tt, world st2)) /\
    (forall again,
        es_throws (oracle (world st2)) (event_sources (world st2))
                  (V3.BaseUrl (this st2) ++ lit "auth/v1/Subscribe") = None ->
        fst (V3.Subscribe again st2) = Returned true).
Proof.
  intros Hsub i. pose proof Hsub as Hflag.
  unfold V3.Subscribe, bind, read in Hflag. cbn [this] in Hflag.
  destruct (V3.isConnectedES (this st) || negb (active (V3.sessionId (this st))))
    eqn:Hguard; [discriminate|]. clear Hflag.
  apply orb_false_iff in Hguard. destruct Hguard as [_ Hact].
  apply negb_false_iff in Hact.
  apply V3_Subscribe_true_state in Hsub. subst st1. split.
  - intros data. unfold onmessage.
    cbn [world event_sources set_event_sources]. subst i.
    rewrite nth_error_last. cbn [es_closed es_consumer].
    unfold bind.
    pose proof (getMessageFromEvent_returns data (world st)) as Hm.
    match goal with
    | |- context [getMessageFromEvent data ?w] =>
        pose proof (getMessageFromEvent_returns data w) as Hr;
        assert (Hd : delivered (snd (getMessageFromEvent data w)) = delivered w);
        [|destruct (getMessageFromEvent data w) as [r w']]
    end.
    { unfold getMessageFromEvent, bind, console_log, console_error, modify, ret.
      destruct data; try reflexivity. destruct (JSON_parse s); reflexivity. }
    cbn [fst snd] in *. subst r. cbn. now rewrite Hd.
  - eexists. split; [|split; [|split]].
    + unfold V3.Unsubscribe, bind, read, in_world, EventSource_close, modify,
        update, ret.
      cbn [this world fst snd V3.isConnectedES V3.set_isConnectedES
           V3.esLink V3.set_esLink negb].
      reflexivity.
    + reflexivity.
    + intros data. unfold onmessage.
      cbn [world event_sources set_event_sources]. subst i.
      rewrite close_nth_last, nth_error_last. reflexivity.
    + intros again Hes.
      apply V3_Subscribe_opens; [reflexivity|exact Hact|exact Hes].
Qed.

Lemma V3_subscription_life_witness :
  exists st2,
    V3.Unsubscribe (snd (V3.Subscribe 1 Demo.expired)) = (Returned true, st2).
Proof.
  destruct (@V3_subscription_life Demo.expired
              (snd (V3.Subscribe 1 Demo.expired)) 1 eq_refl)
    as (_ & st2 & Hu & _).
  exists st2. exact Hu.
Defined.

(* ================================================================= *)
(** ** Further properties: connecting and reconnecting in [V3] *)

Section V3Connect.
Context {P : Platform}.

(** How a sign-in of [V3] ends. *)
Lemma V3_SignInUserKey_outcome key st :
  wp (V3.SignInUserKey key)
     (fun r st' =>
        (handshake_succeeded r = false /\
         V3.sessionId (this st') = V3.sessionId (this st))
        \/
        (exists response headers cookie sid,
            r = Returned response /\ succeeded response = true /\
            get_prop response "headers" = Returned headers /\
            get_prop headers "set-cookie" = Returned (VStr cookie) /\
            match_sid cookie = Some sid /\
            V3.sessionId (this st') = Some sid /\
            V3.isConnected (this st') = true))
     st.
Proof.
  unfold V3.SignInUserKey.
  destruct (trim key); [left; split; reflexivity|].
  apply wp_bind.
  apply (wp_keeps (g := V3.sessionId)); [apply V3_ApiRequest_fetch_keeps|].
  intros [request|e] s0 H0; [|left; split; [reflexivity|exact H0]].
  unfold V3.SignInUserKey_resume.
  apply wp_bind.
  apply (wp_keeps (g := V3.sessionId));
    [apply V3_ApiRequest_settle_keeps_session|].
  intros [loginOptionResponse|e] s1 H1; [|left; split; [reflexivity|congruence]].
  apply wp_bind, wp_complete.
  destruct (get_prop loginOptionResponse "result") as [authOptions|e];
    [|left; split; [reflexivity|congruence]].
  destruct (negb (truthy authOptions)).
  { apply wp_bind, wp_complete.
    destruct (get_prop loginOptionResponse "error");
      [apply wp_ret|]; left; (split; [reflexivity|congruence]). }
  apply wp_bind, wp_complete.
  destruct (get_prop authOptions "challenge") as [challenge|e];
    [|left; split; [reflexivity|congruence]].
  apply wp_bind, wp_complete.
  destruct (base64ToUint8Array challenge) as [challengeBuf|e];
    [|left; split; [reflexivity|congruence]].
  cbv beta zeta. apply wp_bind, wp_complete.
  destruct (get_prop authOptions "challenge_id") as [challenge_id|e];
    [|left; split; [reflexivity|congruence]].
  apply wp_bind.
  apply (wp_keeps (g := V3.sessionId)); [apply V3_getDeviceGuid_keeps_session|].
  intros [device_guid|e] s2 H2; [|left; split; [reflexivity|congruence]].
  apply wp_bind.
  apply (wp_keeps (g := V3.sessionId)); [apply V3_ApiRequest_keeps_session|].
  intros [loginResponse|e] s3 H3; [|left; split; [reflexivity|congruence]].
  apply wp_bind.
  destruct (succeeded loginResponse) eqn:Hs.
  - apply wp_bind. unfold wp at 1.
    destruct (set_cookie_sid loginResponse s3) as [[sid|e] s4] eqn:Ec;
      cbn [fst snd].
    + apply set_cookie_sid_returns in Ec.
      destruct Ec as (-> & headers & cookie & Hh & Hc & Hm).
      unfold wp. cbn. right. exists loginResponse, headers, cookie, sid.
      repeat split; assumption.
    + pose proof (set_cookie_sid_keeps V3.sessionId loginResponse s3) as Hk.
      rewrite Ec in Hk. cbn [snd] in Hk.
      left. split; [reflexivity|congruence].
  - apply wp_ret, wp_ret. left. cbn. rewrite Hs. split; [reflexivity|congruence].
Qed.

(** X11.  A sign-in of [V3] that returns a success leaves the client connected,
    with the session of the cookie; [Connect()] is then a no-op that
    returns [true] and sends nothing. *)
Theorem V3_SignInUserKey_connects key st :
  handshake_succeeded (fst (V3.SignInUserKey key st)) = true ->
  let st' := snd (V3.SignInUserKey key st) in
  V3.isConnected (this st') = true /\
  (exists sid, V3.sessionId (this st') = Some sid /\
               sid <> [] /\ ~ In 59%N sid) /\
  V3.Connect false st' = (Returned true, st').
Proof.
  intros Hok st'.
  destruct (V3_SignInUserKey_outcome key st)
    as [[Hno _]|(response & headers & cookie & sid & _ & _ & _ & _ & Hm & Hsid & Hcon)];
    [congruence|].
  fold st' in Hsid, Hcon.
  destruct (match_sid_capture _ Hm) as (Hne & Hsemi).
  split; [exact Hcon|]. split; [now exists sid|].
  unfold V3.Connect, bind, read. cbn [this negb andb]. now rewrite Hcon.
Qed.

End V3Connect.

Lemma V3_SignInUserKey_connects_witness :
  V3.isConnected
    (this (snd (V3.SignInUserKey (P := Demo.platform) (lit "key")
                  Demo.expired))) = true.
Proof.
  refine (proj1 (@V3_SignInUserKey_connects Demo.platform (lit "key")
                   Demo.expired _)).
  vm_compute. reflexivity.
Defined.


(* ================================================================= *)
(** ** Further properties: the fields of a [V2] client *)

Section V2Fields.
Context {P : Platform}.

(** Any property of the session id that every captured session has is
    kept by every call. *)
Lemma V2_exec_stable_session (K : option jsstring -> Prop) :
  (forall sid, sid <> [] -> ~ In 59%N sid -> K (Some sid)) ->
  forall c, stable (fun cl => K (V2.sessionId cl)) (V2Run.exec c).
Proof.
  intros HK c.
  destruct c; cbn [V2Run.exec];
    unfold V2.GetSessionId, V2.SignInUserKey, V2.GetInfo, V2.GetLoginLog,
      V2.ResetPassword, V2.InitializeNewKey, V2.CreateUserKey,
      V2.Subscribe, V2.Unsubscribe, V2.Logout, V2.getDeviceGuid;
    repeat first
      [ apply stable_keeps; solve [apply V2_ApiRequest_keeps
                                  | apply keeps_read]
      | apply stable_set_cookie_sid; intros sid Hne Hsemi
      | apply stable_update; intros [] H; cbn in *; solve [exact H | auto]
      | stable_step ].
Qed.

(** X13.  The session of a [V2] client is never cleared and never malformed.
    In every reachable state the session id is [null] or a string that is
    not empty and has no [;]; a client that has a session still has one
    after any call, a failed sign-in and [Logout] included; and [Logout]
    writes no field at all, so that the calls after it still send the
    cookie of the session. *)
Theorem V2_session_never_cleared baseUrl w st :
  V2Run.reachable baseUrl w st ->
  well_formed (V2.sessionId (this st)) /\
  (forall c,
      active (V2.sessionId (this st)) = true ->
      active (V2.sessionId (this (snd (V2Run.exec c st)))) = true) /\
  this (snd (V2.Logout st)) = this st.
Proof.
  intros Hreach. split; [|split].
  - induction Hreach as [|st c _ IH]; [exact I|].
    apply (V2_exec_stable_session well_formed); [|exact IH].
    intros sid Hne Hsemi. split; assumption.
  - intros c.
    apply (V2_exec_stable_session (fun s => active s = true)).
    intros [|x sid] Hne _; [congruence|reflexivity].
  - apply (V2_ApiRequest_keeps (fun c => c)).
Qed.

(** X14.  Once the device id is set it is never replaced: [getDeviceGuid]
    returns it and draws nothing, and it is the same after any call.
    Before that, [getDeviceGuid] draws one random UUID and keeps it. *)
Theorem V2_deviceGuid_never_rotates st :
  match V2.deviceGuid (this st) with
  | Some (x :: g) =>
      V2.getDeviceGuid st = (Returned (x :: g), st) /\
      forall c, V2.deviceGuid (this (snd (V2Run.exec c st))) = Some (x :: g)
  | _ =>
      fst (V2.getDeviceGuid st) =
        Returned (random_uuid (oracle (world st)) (uuids_drawn (world st))) /\
      V2.deviceGuid (this (snd (V2.getDeviceGuid st))) =
        Some (random_uuid (oracle (world st)) (uuids_drawn (world st))) /\
      uuids_drawn (world (snd (V2.getDeviceGuid st))) =
        S (uuids_drawn (world st))
  end.
Proof.
  destruct (V2.deviceGuid (this st)) as [[|x g]|] eqn:Hg.
  - unfold V2.getDeviceGuid, bind, read. cbn [this]. rewrite Hg.
    repeat split.
  - split.
    + unfold V2.getDeviceGuid, bind, read. cbn [this]. now rewrite Hg.
    + intros c.
      assert (Hget : stable (fun cl => V2.deviceGuid cl = Some (x :: g))
                            V2.getDeviceGuid).
      { intros s Hs. unfold V2.getDeviceGuid, bind, read. cbn [this].
        now rewrite Hs. }
      assert (Hexec : stable (fun cl => V2.deviceGuid cl = Some (x :: g))
                             (V2Run.exec c)).
      { destruct c; cbn [V2Run.exec];
          unfold V2.GetSessionId, V2.SignInUserKey, V2.GetInfo,
            V2.GetLoginLog, V2.ResetPassword, V2.InitializeNewKey,
            V2.CreateUserKey, V2.Subscribe, V2.Unsubscribe, V2.Logout;
          repeat first
            [ apply Hget
            | apply stable_keeps; solve [apply V2_ApiRequest_keeps
                                        | apply keeps_read
                                        | apply set_cookie_sid_keeps]
            | apply stable_update; intros [] H; exact H
            | stable_step ]. }
      now apply Hexec.
  - unfold V2.getDeviceGuid, bind, read. cbn [this]. rewrite Hg.
    repeat split.
Qed.
End V2Fields.

Lemma V2_session_never_cleared_witness :
  V2.sessionId (this (snd (V2.Logout Demo.signed_in))) = Some (lit "new").
Proof.
  pose proof (proj2 (proj2
    (@V2_session_never_cleared Demo.platform Demo.base
       (Demo.world_of Demo.serving) Demo.signed_in
       (V2Run.reach_call (V2Run.SignInUserKey (lit "key"))
          (V2Run.reach_new Demo.base (Demo.world_of Demo.serving)))))) as H.
  rewrite H. vm_compute. reflexivity.
Defined.

(* ================================================================= *)
(** ** Further properties: what a call sends *)

Lemma trim_start_nil_iff (s : jsstring) :
  trim_start s = [] <-> forallb is_white_space s = true.
Proof.
  induction s as [|c s IH]; simpl; [tauto|].
  destruct (is_white_space c); simpl; [exact IH|].
  split; discriminate.
Qed.

Lemma trim_start_head (s : jsstring) :
  match trim_start s with
  | [] => True
  | c :: _ => is_white_space c = false
  end.
Proof.
  induction s as [|c s IH]; simpl; [exact I|].
  destruct (is_white_space c) eqn:E; [exact IH|exact E].
Qed.

(** [trim] leaves nothing exactly of the strings made of white space. *)
Lemma trim_nil_iff (s : jsstring) :
  trim s = [] <-> forallb is_white_space s = true.
Proof.
  unfold trim. rewrite <- trim_start_nil_iff. split.
  - intros H.
    assert (Hr : trim_start (rev (trim_start s)) = []).
    { destruct (trim_start (rev (trim_start s))) as [|x t]; [reflexivity|].
      simpl in H. destruct (rev t); discriminate. }
    apply trim_start_nil_iff in Hr. rewrite forallb_forall in Hr.
    pose proof (trim_start_head s) as Hh.
    destruct (trim_start s) as [|c t]; [reflexivity|].
    rewrite (Hr c) in Hh; [discriminate|].
    apply in_rev. rewrite rev_involutive. now left.
  - intros ->. reflexivity.
Qed.

Section Requests.
Context {P : Platform}.

Lemma V2_getDeviceGuid_run st :
  exists g st',
    V2.getDeviceGuid st = (Returned g, st') /\
    V2.deviceGuid (this st') = Some g /\
    V2.BaseUrl (this st') = V2.BaseUrl (this st) /\
    V2.sessionId (this st') = V2.sessionId (this st) /\
    net_log (world st') = net_log (world st) /\
    oracle (world st') = oracle (world st).
Proof.
  unfold V2.getDeviceGuid, bind, read, in_world, randomUUID, update, ret.
  cbn [this world fst snd].
  destruct (V2.deviceGuid (this st)) as [[|x g]|] eqn:Hg;
    do 2 eexists; (split; [reflexivity|]); cbn; auto.
Qed.




Lemma trim_nonempty (s : jsstring) : trim s <> [] -> s <> [].
Proof. intros H ->. now apply H. Qed.

(** X16.  What [InitializeNewKey] sends.  A code of white space only is refused
    and nothing is sent.  Any other code is sent once, as it was passed
    (not trimmed), always after [?code=]: the branch without a query is
    never taken. *)
Theorem V2_InitializeNewKey_request emailCode st :
  (forallb is_white_space emailCode = true /\
   V2.InitializeNewKey emailCode st =
     (Returned (validationErrorResponse "Email code must be not empty"), st))
  \/
  (forallb is_white_space emailCode = false /\
   exists v req,
     V2.InitializeNewKey emailCode st =
       (Returned v,
        {| this := this st;
           world := set_net_log (net_log (world st) ++ [req]) (world st) |}) /\
     req_url req =
       V2.BaseUrl (this st) ++ lit "auth/v1/register_options?code="
         ++ emailCode).
Proof.
  destruct (forallb is_white_space emailCode) eqn:Hws.
  - left. split; [reflexivity|].
    apply trim_nil_iff in Hws. unfold V2.InitializeNewKey. now rewrite Hws.
  - right. split; [reflexivity|].
    assert (Hne : trim emailCode <> []).
    { intros H. apply trim_nil_iff in H. congruence. }
    pose proof (trim_nonempty Hne) as Hcode.
    unfold V2.InitializeNewKey.
    destruct (trim emailCode) as [|c t]; [congruence|].
    destruct emailCode as [|x code]; [congruence|].
    do 2 eexists. split; [apply V2_ApiRequest_run|].
    reflexivity.
Qed.

(** X17.  What [ResetPassword] sends.  A phone that [formatAsNumber] makes
    nothing of is refused, nothing is sent and no device id is made.  Any
    other phone is sent once, as the caller wrote it (neither trimmed nor
    formatted), with the device id that the client holds afterwards. *)
Theorem V2_ResetPassword_request phone st :
  (truthy (formatAsNumber (trim phone)) = false /\
   V2.ResetPassword phone st =
     (Returned (validationErrorResponse "Phone must be not empty"), st))
  \/
  (truthy (formatAsNumber (trim phone)) = true /\
   exists v req g,
     fst (V2.ResetPassword phone st) = Returned v /\
     net_log (world (snd (V2.ResetPassword phone st))) =
       net_log (world st) ++ [req] /\
     req_url req =
       V2.BaseUrl (this st) ++ lit "auth/v1/reset_password?phone=" ++ phone /\
     V2.deviceGuid (this (snd (V2.ResetPassword phone st))) = Some g /\
     obj_get (lit "device_guid")
             (spread (obj_get (lit "headers") (req_init req))) = VStr g).
Proof.
  unfold V2.ResetPassword.
  destruct (truthy (formatAsNumber (trim phone))); cbn [negb].
  - right. split; [reflexivity|].
    unfold bind.
    destruct (V2_getDeviceGuid_run st)
      as (g & s2 & Hg & Hdev & Hbase & Hsess & Hlog & _).
    rewrite Hg.
    match goal with
    | |- context [V2.ApiRequest ?url ?init s2] =>
        pose proof (V2_ApiRequest_run url init s2) as Hrun
    end.
    cbv zeta in Hrun. rewrite Hrun. cbn [fst snd this world net_log set_net_log].
    do 3 eexists. split; [reflexivity|]. rewrite Hlog.
    split; [reflexivity|]. split; [cbn [req_url]; now rewrite Hbase, app_assoc|].
    split; [exact Hdev|].
    cbn [req_init]. rewrite obj_get_set_same. cbn [spread].
    destruct (V2.sessionId (this s2)) as [[|x sid]|]; reflexivity.
  - left. split; reflexivity.
Qed.
End Requests.

(* ================================================================= *)
(** ** Further properties: the results of [V1] *)

Section V1Results.
Context {P : Platform}.

Lemma result_test_always (result : Val) :
  truthy result || negb (is_string result (lit "Failure")) = true.
Proof.
  destruct (is_string result (lit "Failure")) eqn:E;
    [|apply orb_true_r].
  destruct result; try discriminate.
  cbn [is_string] in E. apply str_eqb_eq in E. subst s. reflexivity.
Qed.

(** X18.  Once the phone has passed the check, [ResetPassword] of [V1] returns
    the [result] of the response as it is: a result ["Failure"] is
    returned like any other, a response without a result gives
    [undefined], and the [return null] after the test is never reached. *)
Theorem V1_ResetPassword_returns_result phone st :
  truthy (formatAsNumber (trim phone)) = true ->
  exists response st',
    V1.apiResetPassword phone st = (Returned response, st') /\
    V1.ResetPassword phone st = (get_prop response "result", st').
Proof.
  intros Hphone. unfold V1.ResetPassword. rewrite Hphone. cbn [negb].
  unfold V1.apiResetPassword.
  match goal with
  | |- context [V1.ApiRequest ?url ?init st] =>
      pose proof (V1_ApiRequest_run url init st) as Hrun
  end.
  cbv zeta in Hrun.
  do 2 eexists. split; [exact Hrun|].
  unfold bind at 1. rewrite Hrun. unfold bind.
  match goal with
  | |- context [get_prop ?v "result"] =>
      destruct (get_prop v "result") as [result|e]
  end; cbn [complete ret throw]; [|reflexivity].
  now rewrite result_test_always.
Qed.

(** X19.  What the methods of [V1] make of an error of the transport (a
    status that is not 2xx, a rejected fetch, a body that is no JSON):
    [GetInfo] and [GetLoginLog] return the error object, [Logout] and
    [InitializeNewKey] return [null], and [ResetPassword] returns
    [undefined]. *)
Theorem V1_on_transport_error st message headers :
  (fst (V1.apiGetInfo st) = Returned (error_response message headers) ->
   fst (V1.GetInfo st) = Returned (VObj [(lit "message", message)])) /\
  (fst (V1.apiLoginLog st) = Returned (error_response message headers) ->
   fst (V1.GetLoginLog st) = Returned (VObj [(lit "message", message)])) /\
  (fst (V1.apiLogout st) = Returned (error_response message headers) ->
   fst (V1.Logout st) = Returned VNull) /\
  (forall code,
      trim code <> [] ->
      fst (V1.apiRegisterOptions (Some code) st)
        = Returned (error_response message headers) ->
      fst (V1.InitializeNewKey code st) = Returned VNull) /\
  (forall phone,
      truthy (formatAsNumber (trim phone)) = true ->
      fst (V1.apiResetPassword phone st)
        = Returned (error_response message headers) ->
      fst (V1.ResetPassword phone st) = Returned VUndef).
Proof.
  repeat split.
  - intros H. unfold V1.GetInfo, bind.
    destruct (V1.apiGetInfo st) as [[response|e] s1]; cbn [fst] in H;
      inversion H; subst. reflexivity.
  - intros H. unfold V1.GetLoginLog, bind.
    destruct (V1.apiLoginLog st) as [[response|e] s1]; cbn [fst] in H;
      inversion H; subst. reflexivity.
  - intros H. unfold V1.Logout, bind.
    destruct (V1.apiLogout st) as [[response|e] s1]; cbn [fst] in H;
      inversion H; subst. reflexivity.
  - intros code Hcode H. unfold V1.InitializeNewKey.
    destruct (trim code); [congruence|]. unfold bind.
    destruct (V1.apiRegisterOptions (Some code) st) as [[response|e] s1];
      cbn [fst] in H; inversion H; subst. reflexivity.
  - intros phone Hphone H. unfold V1.ResetPassword. rewrite Hphone.
    cbn [negb]. unfold bind.
    destruct (V1.apiResetPassword phone st) as [[response|e] s1];
      cbn [fst] in H; inversion H; subst. reflexivity.
Qed.
End V1Results.

Lemma V1_ResetPassword_returns_result_witness :
  fst (V1.ResetPassword (P := Demo.platform) (lit "15551234567")
         (Demo.v1 Demo.serving)) = Returned VUndef.
Proof.
  destruct (@V1_ResetPassword_returns_result Demo.platform
              (lit "15551234567") (Demo.v1 Demo.serving) eq_refl)
    as (response & st' & Hapi & Hrun).
  rewrite Hrun. cbn [fst].
  vm_compute in Hapi. inversion Hapi. reflexivity.
Defined.

Lemma V1_on_transport_error_witness :
  fst (V1.GetInfo (Demo.v1 Demo.failing)) =
    Returned (VObj [(lit "message",
                     VStr (lit "Status: 500. Internal Server Error"))]).
Proof.
  refine (proj1 (@V1_on_transport_error Demo.platform (Demo.v1 Demo.failing)
                   (VStr (lit "Status: 500. Internal Server Error"))
                   (VObj [])) _).
  vm_compute. reflexivity.
Defined.

(* ================================================================= *)
(** ** Further properties: the device id of [V3] *)

Section V3Device.
Context {P : Platform}.

(** X20.  Once the device id of [V3] is set it is never replaced:
    [getDeviceGuid] returns it without reading the file or drawing
    anything, and it is the same after any call or event. *)
Theorem V3_deviceGuid_never_rotates st :
  truthy (V3.deviceGuid (this st)) = true ->
  V3.getDeviceGuid st = (Returned (V3.deviceGuid (this st)), st) /\
  forall c,
    V3.deviceGuid (this (snd (V3Run.exec c st))) = V3.deviceGuid (this st).
Proof.
  intros Hset. split.
  - unfold V3.getDeviceGuid, bind, read. cbn [this]. now rewrite Hset.
  - intros c.
    set (J := fun cl : V3.Client => V3.deviceGuid cl = V3.deviceGuid (this st)).
    assert (Hget : stable J V3.getDeviceGuid).
    { intros s Hs. unfold V3.getDeviceGuid, bind, read. cbn [this].
      unfold J in Hs. rewrite Hs, Hset. exact Hs. }
    assert (Hsettle : forall request, stable J (V3.ApiRequest_settle request)).
    { intros request. unfold V3.ApiRequest_settle.
      repeat first
        [ apply stable_keeps; solve [apply V3_Connect_unawaited_keeps
                                    | apply keeps_await
                                    | apply keeps_response_json]
        | apply stable_update; intros [] H; exact H
        | stable_step ]. }
    assert (Hapi : forall url init, stable J (V3.ApiRequest url init)).
    { intros url init. unfold V3.ApiRequest.
      apply stable_bind; [|intros request; apply Hsettle].
      apply stable_keeps, V3_ApiRequest_fetch_keeps. }
    assert (Hresume : forall key request,
               stable J (V3.SignInUserKey_resume key request)).
    { intros key request. unfold V3.SignInUserKey_resume.
      repeat first
        [ apply Hsettle | apply Hapi | apply Hget
        | apply stable_keeps; solve [apply set_cookie_sid_keeps]
        | apply stable_update; intros [] H; exact H
        | stable_step ]. }
    assert (Hsign : forall key, stable J (V3.SignInUserKey key)).
    { intros key. unfold V3.SignInUserKey.
      repeat first
        [ apply Hresume
        | apply stable_keeps; solve [apply V3_ApiRequest_fetch_keeps]
        | stable_step ]. }
    assert (Hexec : stable J (V3Run.exec c)).
    { destruct c; cbn [V3Run.exec];
        try (unfold V3.resume_suspended; intros s Hs;
             destruct (suspended (world s)) as [|call rest]; [exact Hs|];
             revert s Hs;
             change (stable J
                       (try_catch
                          (in_world (modify (set_suspended rest));;
                           V3.SignInUserKey_resume (key_in_use call)
                                                   (awaited call);;
                           ret tt)
                          (fun e => in_world
                             (modify (fun w =>
                                set_unhandled (unhandled w ++ [e]) w)))));
             repeat first [apply Hresume | stable_step]);
        unfold V3.GetSessionId, V3.Connect, V3.GetInfo,
          V3.GetLoginLog, V3.ResetPassword, V3.InitializeNewKey,
          V3.CreateUserKey, V3.Subscribe, V3.Unsubscribe, V3.Logout;
        repeat first
          [ apply Hsign | apply Hresume | apply Hapi | apply Hget
          | apply stable_keeps; solve [apply V3_ApiRequest_fetch_keeps
                                      | apply keeps_read]
          | apply stable_update; intros [] H; exact H
          | stable_step ]. }
    apply Hexec. reflexivity.
Qed.

(** X21.  Where [getDeviceGuid] of [V3] takes a device id that is not set
    yet.  From [authProxyConfig.json] when the file holds an object with a
    [deviceGuid]: nothing is drawn and nothing is written.  From a new
    random UUID when there is no file, or the file cannot be read, or is no
    JSON: the call still returns, and without a readable file the new id is
    written to the file if that can be written, and the file is left as it
    is otherwise.  And when the file holds [null], the call throws. *)
Theorem V3_getDeviceGuid_sources st :
  truthy (V3.deviceGuid (this st)) = false ->
  let uuid := random_uuid (oracle (world st)) (uuids_drawn (world st)) in
  match config_file (world st) with
  | FileText text =>
      match JSON_parse text with
      | Some VNull =>
          exists e, V3.getDeviceGuid st = (Threw (TypeError e), st)
      | Some (VObj fields) =>
          truthy (obj_get (lit "deviceGuid") fields) = true ->
          V3.getDeviceGuid st =
            (Returned (obj_get (lit "deviceGuid") fields),
             {| this := V3.set_deviceGuid (obj_get (lit "deviceGuid") fields)
                                          (this st);
                world := world st |})
      | Some _ => True
      | None =>
          fst (V3.getDeviceGuid st) = Returned (VStr uuid) /\
          V3.deviceGuid (this (snd (V3.getDeviceGuid st))) = VStr uuid
      end
  | _ =>
      fst (V3.getDeviceGuid st) = Returned (VStr uuid) /\
      V3.deviceGuid (this (snd (V3.getDeviceGuid st))) = VStr uuid /\
      config_file (world (snd (V3.getDeviceGuid st))) =
        (if config_writable (world st)
         then FileText (JSON_stringify
                          (VObj [(lit "deviceGuid", VStr uuid)]) 2)
         else config_file (world st))
  end.
Proof.
  intros Hunset uuid. subst uuid.
  destruct st as [cl w]. cbn [this world] in *.
  unfold V3.getDeviceGuid, bind, read, in_world, try_catch, V3.read_config,
    V3.write_config, complete, ret, throw, update, randomUUID, console_error,
    modify.
  cbn [this world fst snd]. rewrite Hunset. cbn.
  destruct (config_file w) as [| |text] eqn:Hfile; cbn.
  - destruct (config_writable w) eqn:Hw; cbn; rewrite ?Hfile; repeat split.
  - destruct (config_writable w) eqn:Hw; cbn; rewrite ?Hfile; repeat split.
  - destruct (JSON_parse text) as [[| |b|m e|s|items|fields]|]; cbn; auto.
    + eexists. reflexivity.
    + intros Hfound. rewrite Hfound. reflexivity.
    + destruct (config_writable w) eqn:Hw; cbn; repeat split.
Qed.
End V3Device.

Lemma V3_deviceGuid_never_rotates_witness :
  V3.deviceGuid
    (this (snd (V3Run.exec (P := Demo.platform) V3Run.GetInfo
                  (snd (V3.getDeviceGuid (P := Demo.platform) Demo.expired)))))
  = VStr (lit "uuid-0").
Proof.
  rewrite (proj2 (@V3_deviceGuid_never_rotates Demo.platform
                    (snd (V3.getDeviceGuid (P := Demo.platform) Demo.expired))
                    eq_refl) V3Run.GetInfo).
  vm_compute. reflexivity.
Defined.

Lemma V3_getDeviceGuid_sources_witness :
  fst (V3.getDeviceGuid (P := Demo.platform) Demo.expired) =
    Returned (VStr (lit "uuid-0")).
Proof.
  exact (proj1 (@V3_getDeviceGuid_sources Demo.platform Demo.expired eq_refl)).
Defined.

(* ================================================================= *)
(** ** Further properties: the clock text and the base64 alphabet *)

Lemma slice_last_2_two_digits (n : N) :
  (n < 60)%N ->
  Time.slice_last_2 (lit "0" ++ dec_of_N n) = two_digits n.
Proof.
  intros Hn.
  assert (Hall : forallb
            (fun k => str_eqb
                        (Time.slice_last_2 (lit "0" ++ dec_of_N (N.of_nat k)))
                        (two_digits (N.of_nat k)))
            (seq 0 60) = true) by (vm_compute; reflexivity).
  rewrite forallb_forall in Hall.
  specialize (Hall (N.to_nat n)).
  rewrite N2Nat.id in Hall.
  apply str_eqb_eq, Hall, in_seq. lia.
Qed.

(** X22.  The text is [HH:MM], the hour and the minute of the local time in two
    decimal digits each; a time value outside the range of [Date] gives
    [aN:aN], the last two characters of [0NaN] twice. *)
Theorem formatTimeAndTimeZone_text (LocalTZA : Z -> Z) (inputDate : Z) :
  let date := (inputDate * 1000)%Z in
  let local := (date + LocalTZA date)%Z in
  Time.formatTimeAndTimeZone LocalTZA inputDate =
    if Time.valid_time date
    then two_digits (Z.to_N ((local / 3600000) mod 24))
           ++ lit ":" ++ two_digits (Z.to_N ((local / 60000) mod 60))
    else lit "aN:aN".
Proof.
  intros date local.
  unfold Time.formatTimeAndTimeZone, Time.getHours, Time.getMinutes.
  fold date. destruct (Time.valid_time date); [|reflexivity].
  fold local. unfold Time.number_text.
  rewrite !slice_last_2_two_digits; [reflexivity| |].
  - pose proof (Z.mod_pos_bound (local / 60000) 60 ltac:(lia)). lia.
  - pose proof (Z.mod_pos_bound (local / 3600000) 24 ltac:(lia)). lia.
Qed.

Section Base64.
Context {P : Platform}.

Lemma replace_all_twice (c d : N) (s : jsstring) :
  c <> d -> replace_all c d (replace_all c d s) = replace_all c d s.
Proof.
  intros Hcd. unfold replace_all. rewrite map_map. apply map_ext.
  intros x. destruct (N.eqb x c) eqn:Hx; [|rewrite Hx; reflexivity].
  destruct (N.eqb d c) eqn:Hd; [|reflexivity].
  apply N.eqb_eq in Hd. congruence.
Qed.

Lemma replace_all_comm (a b c d : N) (s : jsstring) :
  a <> c -> a <> d -> c <> b ->
  replace_all a b (replace_all c d s) = replace_all c d (replace_all a b s).
Proof.
  intros Hac Had Hcb. unfold replace_all. rewrite !map_map. apply map_ext.
  intros x.
  destruct (N.eqb x c) eqn:Hxc, (N.eqb x a) eqn:Hxa;
    rewrite ?N.eqb_eq, ?N.eqb_neq in *; subst;
    repeat match goal with
           | |- context [N.eqb ?u ?v] =>
               let H := fresh in
               destruct (N.eqb u v) eqn:H;
               rewrite ?N.eqb_eq, ?N.eqb_neq in H
           end; congruence.
Qed.

(** X23.  The URL-safe and the standard spelling of a base64 text decode alike:
    writing [+] for any [-] and [/] for any [_] beforehand changes
    nothing, whatever the decoder. *)
Theorem base64ToUint8Array_either_alphabet (s : jsstring) :
  base64ToUint8Array (VStr (replace_all 45 43 s)) = base64ToUint8Array (VStr s)
  /\ base64ToUint8Array (VStr (replace_all 95 47 s)) =
       base64ToUint8Array (VStr s).
Proof.
  unfold base64ToUint8Array. split.
  - rewrite replace_all_twice by discriminate. reflexivity.
  - rewrite (@replace_all_comm 45 43 95 47)%N by discriminate.
    rewrite replace_all_twice by discriminate. reflexivity.
Qed.
End Base64.
